(** * Energy dashboard (script.js): a shallow embedding and its specification

    The page script is embedded function by function.  JavaScript numbers
    that carry measured data are exact rationals ([Q]); numbers that are
    integer-valued at every use (integer literals, results of [Math.round],
    axis ticks) are [Z].  The DOM the script touches is a record ([Page]):
    the text of the elements looked up by id, the children of the tip
    container, the chart handed to the charting library and the inline style
    of the elements the script restyles.  The two global constants of the
    script live in that record as well, so that "nothing writes to the
    dataset" is a statement about the handlers and not a typing accident. *)

From Stdlib Require Import ZArith QArith Qround Qminmax Lia Lqa List Ascii String DecimalString DecimalN.
From stdpp Require Import base option list sorting gmap strings.

Open Scope Z_scope.

(* ================================================================== *)
(** ** The JavaScript built-ins the script calls *)
(* ================================================================== *)

Module JS.

(** [Math.round(x)]: the nearest integer, a tie going up. *)
Definition Math_round (x : Q) : Z := Qfloor (x + (1 # 2))%Q.

(** Decimal digits of a natural number, most significant first. *)
Definition decimal (n : N) : string := NilZero.string_of_uint (N.to_uint n).

(** [String(v)] (also [v + '...']) for an integer-valued number below
    10^21 in magnitude, where the conversion prints plain digits. *)
Definition Number_toString (v : Z) : string :=
  (if v <? 0 then "-" else EmptyString) +:+ decimal (Z.abs_N v).

(** Digit grouping of [Intl.NumberFormat('ko-KR')]: the locale groups by
    three with a comma.  [group_rev] works on the digits least
    significant first: after every full group of three that is followed
    by at least one more digit it emits the separator. *)
Definition separator : ascii := ","%char.

Fixpoint group_rev (ds : list ascii) : list ascii :=
  match ds with
  | a :: b :: c :: ((_ :: _) as more) => a :: b :: c :: separator :: group_rev more
  | _ => ds
  end.

Definition group3 (s : string) : string :=
  string_of_list_ascii (rev (group_rev (rev (list_ascii_of_string s)))).

(** [Number.MAX_SAFE_INTEGER]: up to this magnitude every integer is a
    number of its own, so the digits printed are the digits of the integer.
    Beyond it a number is printed with the digits of the nearest double;
    the definitions below are meant for the safe range only. *)
Definition MAX_SAFE_INTEGER : Z := 2 ^ 53 - 1.

(** [new Intl.NumberFormat('ko-KR').format(num)] for an integer-valued
    [num] of magnitude at most [MAX_SAFE_INTEGER]: a minus sign for a
    negative number, then the grouped digits. *)
Definition Intl_NumberFormat_koKR_format (num : Z) : string :=
  (if num <? 0 then "-" else EmptyString) +:+ group3 (decimal (Z.abs_N num)).

(** An object literal: its own properties in creation order. *)
Definition object (A : Type) : Type := list (string * A).

(** [obj[key]]. *)
Fixpoint get {A} (key : string) (obj : object A) : option A :=
  match obj with
  | [] => None
  | (k, v) :: rest => if String.eqb k key then Some v else get key rest
  end.

Definition digit_value (c : ascii) : option N :=
  let n := N_of_ascii c in
  if ((48 <=? n) && (n <=? 57))%N then Some (n - 48)%N else None.

Fixpoint parse_digits (acc : N) (s : string) : option N :=
  match s with
  | EmptyString => Some acc
  | String c rest =>
      match digit_value c with
      | Some d => parse_digits (10 * acc + d)%N rest
      | None => None
      end
  end.

(** A property key is an array index when it is the canonical decimal
    string of an integer below 2^32 - 1. *)
Definition array_index (key : string) : option N :=
  match key with
  | EmptyString => None
  | _ =>
      match parse_digits 0 key with
      | Some n =>
          if (String.eqb (decimal n) key && (n <? 2 ^ 32 - 1)%N)%bool
          then Some n else None
      | None => None
      end
  end.

Fixpoint insert_by_index {A} (x : N * A) (l : list (N * A)) : list (N * A) :=
  match l with
  | [] => [x]
  | y :: l' => if (fst x <=? fst y)%N then x :: l else y :: insert_by_index x l'
  end.

Definition sort_by_index {A} (l : list (N * A)) : list (N * A) :=
  foldr insert_by_index [] l.

Definition index_properties {A} (obj : object A) : list (N * A) :=
  omap (fun kv => (fun n => (n, snd kv)) <$> array_index (fst kv)) obj.

Definition string_properties {A} (obj : object A) : list (string * A) :=
  List.filter (fun kv => match array_index (fst kv) with None => true | Some _ => false end) obj.

(** [Object.values(obj)]: own property order puts the array-index keys
    first, in ascending numeric order, then the other keys in creation
    order. *)
Definition Object_values {A} (obj : object A) : list A :=
  (snd <$> sort_by_index (index_properties obj)) ++ (snd <$> string_properties obj).

End JS.

(* ================================================================== *)
(** ** The data of the script *)
(* ================================================================== *)

Record Tip := { icon : string; title : string; description : string }.

Record MonthRecord := { usage : Q; cost : Z }.

Definition energyTips0 : list Tip :=
  [ {| icon := "💡"; title := "LED 조명 사용";
       description := "기존 형광등을 LED 조명으로 교체하여 전력 소비를 70% 절약할 수 있습니다." |};
    {| icon := "❄️"; title := "적정 냉난방 온도 유지";
       description := "여름철 26°C, 겨울철 20°C로 설정하여 에너지 사용량을 크게 줄일 수 있습니다." |};
    {| icon := "🔌"; title := "대기전력 차단";
       description := "사용하지 않는 전자기기의 플러그를 뽑거나 멀티탭 스위치를 꺼주세요." |};
    {| icon := "🪟"; title := "자연광 활용";
       description := "낮 시간에는 블라인드를 열어 자연광을 최대한 활용하고 조명 사용을 줄이세요." |};
    {| icon := "🖥️"; title := "컴퓨터 절전모드 설정";
       description := "컴퓨터와 모니터의 절전모드를 설정하여 불필요한 전력 소비를 방지하세요." |};
    {| icon := "🚪"; title := "출입문 관리";
       description := "냉난방 효율을 높이기 위해 출입문을 자주 열어두지 말고 신속히 닫아주세요." |};
    {| icon := "🌡️"; title := "단열 개선";
       description := "창문과 문틈의 단열을 개선하여 냉난방 에너지 손실을 최소화하세요." |};
    {| icon := "⏰"; title := "피크타임 사용 자제";
       description := "전력 수요가 높은 시간대(오후 2-5시)에는 고전력 기기 사용을 자제하세요." |};
    {| icon := "🔄"; title := "정기적인 설비 점검";
       description := "에어컨 필터 청소, 설비 점검을 통해 에너지 효율을 최적화하세요." |};
    {| icon := "📊"; title := "에너지 사용량 모니터링";
       description := "정기적으로 전력 사용량을 확인하고 절약 목표를 설정하여 관리하세요." |} ].

Definition monthlyData0 : JS.object MonthRecord :=
  [ ("1",  {| usage := 197563.47; cost := 55366215 |});
    ("2",  {| usage := 177796.08; cost := 49819485 |});
    ("3",  {| usage := 143327.69; cost := 40147655 |});
    ("4",  {| usage := 132277.06; cost := 37046848 |});
    ("5",  {| usage := 143383.93; cost := 40163436 |});
    ("6",  {| usage := 137995.68; cost := 38651493 |});
    ("7",  {| usage := 191801.46; cost := 53749395 |});
    ("8",  {| usage := 202643.01; cost := 56791534 |});
    ("9",  {| usage := 134760.35; cost := 37743659 |});
    ("10", {| usage := 142068.13; cost := 39794222 |});
    ("11", {| usage := 138033.7;  cost := 38662161 |});
    ("12", {| usage := 138676.47; cost := 38842522 |}) ].

(** [formatNumber(num)]. *)
Definition formatNumber (num : Z) : string := JS.Intl_NumberFormat_koKR_format num.


(* ================================================================== *)
(** ** The page: the part of the DOM the script reads and writes *)
(* ================================================================== *)

(** The inline style properties the scroll animation sets. *)
Record Style := { opacity : string; transform : string; transition : string }.

(** An element matched by ['.chart-section, .tips-section']. *)
Record Section := { style : Style; observed : bool }.

(** A child of [#tips-grid].  [style.animationDelay] is the text
    [`${index * 0.1}s`], a floating-point product; the record keeps the
    index it was computed from. *)
Record Card := {
  className : string;
  animationDelay_index : nat;
  innerHTML : string;
  backgroundColor : string;
  hover_listeners : bool
}.

(** An element matched by ['.summary-card']. *)
Record SummaryCard := { card_transform : string; click_listener : bool }.

Record Dataset := {
  label : string;
  data : list Z;
  series_type : string;
  yAxisID : string
}.

Record Axis := {
  position : string;
  axis_title : string;
  drawOnChartArea : bool;
  ticks_callback : Z -> string
}.

(** The configuration passed to [new Chart(ctx, ...)]; colours, borders and
    fonts are left out. *)
Record Chart := {
  chart_type : string;
  labels : list string;
  datasets : list Dataset;
  title_text : string;
  scale_y : Axis;
  scale_y1 : Axis;
  interaction_mode : string
}.

Record Page := {
  monthlyData : JS.object MonthRecord;
  energyTips : list Tip;
  textContent : gmap string string;
  tips_grid : list Card;
  summary_cards : list SummaryCard;
  chart_container_height : string;
  chart : option Chart;
  sections : list Section
}.

Definition set_textContent (id text : string) (p : Page) : Page :=
  {| monthlyData := monthlyData p; energyTips := energyTips p;
     textContent := <[id := text]> (textContent p);
     tips_grid := tips_grid p; summary_cards := summary_cards p;
     chart_container_height := chart_container_height p;
     chart := chart p; sections := sections p |}.

Definition set_tips_grid (g : list Card) (p : Page) : Page :=
  {| monthlyData := monthlyData p; energyTips := energyTips p;
     textContent := textContent p;
     tips_grid := g; summary_cards := summary_cards p;
     chart_container_height := chart_container_height p;
     chart := chart p; sections := sections p |}.

Definition set_summary_cards (c : list SummaryCard) (p : Page) : Page :=
  {| monthlyData := monthlyData p; energyTips := energyTips p;
     textContent := textContent p;
     tips_grid := tips_grid p; summary_cards := c;
     chart_container_height := chart_container_height p;
     chart := chart p; sections := sections p |}.

Definition set_chart_container_height (h : string) (p : Page) : Page :=
  {| monthlyData := monthlyData p; energyTips := energyTips p;
     textContent := textContent p;
     tips_grid := tips_grid p; summary_cards := summary_cards p;
     chart_container_height := h;
     chart := chart p; sections := sections p |}.

Definition set_chart (c : Chart) (p : Page) : Page :=
  {| monthlyData := monthlyData p; energyTips := energyTips p;
     textContent := textContent p;
     tips_grid := tips_grid p; summary_cards := summary_cards p;
     chart_container_height := chart_container_height p;
     chart := Some c; sections := sections p |}.

Definition set_sections (s : list Section) (p : Page) : Page :=
  {| monthlyData := monthlyData p; energyTips := energyTips p;
     textContent := textContent p;
     tips_grid := tips_grid p; summary_cards := summary_cards p;
     chart_container_height := chart_container_height p;
     chart := chart p; sections := s |}.

(** The page before any script runs.  The markup is not part of the script:
    the number of summary cards and of animated sections are parameters,
    the tip container starts empty and no inline style is set. *)
Definition initial_page (n_summary n_sections : nat) : Page :=
  {| monthlyData := monthlyData0; energyTips := energyTips0;
     textContent := ∅;
     tips_grid := [];
     summary_cards := replicate n_summary {| card_transform := EmptyString; click_listener := false |};
     chart_container_height := EmptyString;
     chart := None;
     sections := replicate n_sections
       {| style := {| opacity := EmptyString; transform := EmptyString;
                      transition := EmptyString |};
          observed := false |} |}.

Definition page0 : Page := initial_page 4 2.

(* ================================================================== *)
(** ** The functions of the script *)
(* ================================================================== *)

Definition nl : string := String "010"%char EmptyString.
Definition dquote : string := String "034"%char EmptyString.
Definition indent12 : string := "            ".
Definition indent8 : string := "        ".

(** The template literal assigned to [tipCard.innerHTML]. *)
Definition tipCard_innerHTML (tip : Tip) : string :=
  nl +:+ indent12 +:+ "<span class=" +:+ dquote +:+ "tip-icon" +:+ dquote +:+ ">"
     +:+ icon tip +:+ "</span>" +:+
  nl +:+ indent12 +:+ "<h3>" +:+ title tip +:+ "</h3>" +:+
  nl +:+ indent12 +:+ "<p>" +:+ description tip +:+ "</p>" +:+
  nl +:+ indent8.

(** The body of the [forEach] callback of [createTipCards]: the element
    that is appended for [tip] at position [index]. *)
Definition tipCard (index : nat) (tip : Tip) : Card :=
  {| className := "tip-card";
     animationDelay_index := index;
     innerHTML := tipCard_innerHTML tip;
     backgroundColor := EmptyString;
     hover_listeners := false |}.

(** [createTipCards()]: one [appendChild] per tip, in order. *)
Definition createTipCards (p : Page) : Page :=
  set_tips_grid (tips_grid p ++ imap tipCard (energyTips p)) p.

Definition months : list string :=
  ["1월"; "2월"; "3월"; "4월"; "5월"; "6월"; "7월"; "8월"; "9월"; "10월"; "11월"; "12월"].

(** [scales.y.ticks.callback]. *)
Definition y_ticks_callback (value : Z) : string := formatNumber value +:+ " kWh".

(** [scales.y1.ticks.callback]. *)
Definition y1_ticks_callback (value : Z) : string := JS.Number_toString value +:+ "백만원".

(** [createChart()].  The division by one million is exact here; the
    script divides doubles, which rounds to the same integer as long as
    the cost is a safe integer (the quotient then stays more than half a
    unit in the last place away from every tie). *)
Definition createChart (p : Page) : Page :=
  let usageData :=
    (fun data => JS.Math_round (usage data)) <$> JS.Object_values (monthlyData p) in
  let costData :=
    (fun data => JS.Math_round (inject_Z (cost data) / 1000000)%Q)
      <$> JS.Object_values (monthlyData p) in
  set_chart
    {| chart_type := "bar";
       labels := months;
       datasets :=
         [ {| label := "전력 사용량 (kWh)"; data := usageData;
              series_type := "bar"; yAxisID := "y" |};
           {| label := "전기요금 (백만원)"; data := costData;
              series_type := "line"; yAxisID := "y1" |} ];
       title_text := "A청사 2023년 월별 전력 사용량 및 전기요금";
       scale_y :=
         {| position := "left"; axis_title := "전력 사용량 (kWh)";
            drawOnChartArea := true; ticks_callback := y_ticks_callback |};
       scale_y1 :=
         {| position := "right"; axis_title := "전기요금 (백만원)";
            drawOnChartArea := false; ticks_callback := y1_ticks_callback |};
       interaction_mode := "index" |} p.

(** [updateSummaryData()]: the four figures are literals of the function. *)
Definition updateSummaryData (p : Page) : Page :=
  let totalUsage : Q := 1880327.03%Q in
  let totalCost : Z := 526778625 in
  let avgUsage : Q := 156693.92%Q in
  let avgCost : Z := 43898219 in
  set_textContent "avg-cost" (formatNumber avgCost +:+ " 원")
    (set_textContent "avg-usage" (formatNumber (JS.Math_round avgUsage) +:+ " kWh")
      (set_textContent "total-cost" (formatNumber totalCost +:+ " 원")
        (set_textContent "total-usage" (formatNumber (JS.Math_round totalUsage) +:+ " kWh") p))).

(** The class names of an element: its [className] split at ASCII
    whitespace. *)
Definition is_space (c : ascii) : bool :=
  Ascii.eqb c " " || Ascii.eqb c "009" || Ascii.eqb c "010"
  || Ascii.eqb c "012" || Ascii.eqb c "013".

Fixpoint class_tokens (current : string) (s : string) : list string :=
  match s with
  | EmptyString =>
      match current with
      | EmptyString => []
      | _ => [current]
      end
  | String c rest =>
      if is_space c then
        match current with
        | EmptyString => class_tokens EmptyString rest
        | _ => current :: class_tokens EmptyString rest
        end
      else class_tokens (current +:+ String c EmptyString) rest
  end.

Definition classList (name : string) : list string :=
  class_tokens EmptyString name.

(** Whether the class selector [.cls] matches an element with this
    [className]. *)
Definition has_class (cls name : string) : bool :=
  existsb (String.eqb cls) (classList name).

(** The [mouseenter] and [mouseleave] listeners are added to a card. *)
Definition add_hover_listeners (c : Card) : Card :=
  {| className := className c;
     animationDelay_index := animationDelay_index c;
     innerHTML := innerHTML c;
     backgroundColor := backgroundColor c;
     hover_listeners := true |}.

(** [addCardInteractions()]: listeners on the cards present at the call.
    Of the children of the tip container, [querySelectorAll('.tip-card')]
    selects those that carry the class. *)
Definition addCardInteractions (p : Page) : Page :=
  set_tips_grid
    ((fun c => if has_class "tip-card" (className c)
               then add_hover_listeners c else c) <$> tips_grid p)
    (set_summary_cards
      ((fun c => {| card_transform := card_transform c; click_listener := true |})
         <$> summary_cards p) p).

Record Entry := { target : nat; isIntersecting : bool }.

Definition reveal (el : Section) : Section :=
  {| style := {| opacity := "1"; transform := "translateY(0)";
                 transition := transition (style el) |};
     observed := observed el |}.

(** The callback given to [new IntersectionObserver].  The options
    (threshold 0.1, bottom root margin -50px) decide when the browser
    reports an entry as intersecting; the callback sees only the flag. *)
Definition observer_callback (entries : list Entry) (p : Page) : Page :=
  foldl (fun p entry =>
           if isIntersecting entry
           then set_sections (alter reveal (target entry) (sections p)) p
           else p)
        p entries.

(** [addScrollAnimations()]. *)
Definition addScrollAnimations (p : Page) : Page :=
  set_sections
    ((fun _ => {| style := {| opacity := "0"; transform := "translateY(30px)";
                               transition := "opacity 0.6s ease, transform 0.6s ease" |};
                  observed := true |}) <$> sections p) p.

(** [setChartHeight()]. *)
Definition setChartHeight (p : Page) : Page := set_chart_container_height "400px" p.

(** The handlers the script registers, and the browser events that run
    them.  [LoadTimer] is the 100 ms timer set by the [DOMContentLoaded]
    handler, [ClickTimer i] the 150 ms timer set by a click on summary card
    [i].  The browser reports intersection changes of observed elements
    only. *)
Inductive Handler :=
| DOMContentLoaded
| LoadTimer
| Resize
| Click (i : nat)
| ClickTimer (i : nat)
| MouseEnter (j : nat)
| MouseLeave (j : nat)
| Intersection (entries : list Entry).

Definition is_observed (p : Page) (entry : Entry) : bool :=
  match sections p !! target entry with
  | Some el => observed el
  | None => false
  end.

Definition restyle_summary (t : string) (c : SummaryCard) : SummaryCard :=
  if click_listener c then {| card_transform := t; click_listener := true |} else c.

Definition recolor_card (bg : string) (c : Card) : Card :=
  if hover_listeners c
  then {| className := className c;
          animationDelay_index := animationDelay_index c;
          innerHTML := innerHTML c;
          backgroundColor := bg;
          hover_listeners := true |}
  else c.

Definition handle (h : Handler) (p : Page) : Page :=
  match h with
  | DOMContentLoaded => setChartHeight (createTipCards (updateSummaryData p))
  | LoadTimer => addScrollAnimations (addCardInteractions (createChart p))
  | Resize => p
  | Click i => set_summary_cards (alter (restyle_summary "scale(0.95)") i (summary_cards p)) p
  | ClickTimer i => set_summary_cards (alter (restyle_summary EmptyString) i (summary_cards p)) p
  | MouseEnter j => set_tips_grid (alter (recolor_card "#f8f9ff") j (tips_grid p)) p
  | MouseLeave j => set_tips_grid (alter (recolor_card EmptyString) j (tips_grid p)) p
  | Intersection entries => observer_callback (List.filter (is_observed p) entries) p
  end.

Definition run (hs : list Handler) (p : Page) : Page := foldl (fun p h => handle h p) p hs.

(** The events of one page load: the document becomes ready, then the
    timer it set fires. *)
Definition page_load : list Handler := [DOMContentLoaded; LoadTimer].

Definition is_load (h : Handler) : bool :=
  match h with
  | DOMContentLoaded | LoadTimer => true
  | _ => false
  end.

(* ================================================================== *)
(** ** How the browser reads an [innerHTML] string back as text *)
(* ================================================================== *)

Module Html.

Definition is_letter (c : ascii) : bool :=
  let n := N_of_ascii c in
  (((65 <=? n) && (n <=? 90)) || ((97 <=? n) && (n <=? 122)))%N.

(** After a ["<"], the tokenizer leaves the data state when the next
    character is a letter (start tag), ["/"] (end tag), ["!"] or ["?"]
    (comment); otherwise the ["<"] is text. *)
Definition opens_markup (rest : string) : bool :=
  match rest with
  | String c _ =>
      is_letter c || Ascii.eqb c "/" || Ascii.eqb c "!" || Ascii.eqb c "?"
  | EmptyString => false
  end.

(** The characters that end up in text nodes: markup runs from its
    opening ["<"] to the next [">"]; outside markup a NUL character is
    dropped and a carriage return, with the line feed that may follow it,
    becomes one line feed.  Character references are not decoded and a
    [">"] inside a quoted attribute value is not recognised; the template
    of the script has neither. *)
Fixpoint text (in_markup : bool) (s : string) : string :=
  match s with
  | EmptyString => EmptyString
  | String c rest =>
      if in_markup then text (negb (Ascii.eqb c ">")) rest
      else if Ascii.eqb c "<" && opens_markup rest then text true rest
      else if Ascii.eqb c "000" then text false rest
      else if Ascii.eqb c "013" then
        String "010"
          match rest with
          | String c' rest' =>
              if Ascii.eqb c' "010" then text false rest' else text false rest
          | EmptyString => EmptyString
          end
      else String c (text false rest)
  end.

(** [el.textContent] after [el.innerHTML = html]. *)
Definition textContent_of (html : string) : string := text false html.

(** No character that the parser treats specially outside markup: no
    ["<"], no ["&"], no NUL and no carriage return. *)
Fixpoint markup_free (s : string) : bool :=
  match s with
  | EmptyString => true
  | String c rest =>
      negb (Ascii.eqb c "<") && negb (Ascii.eqb c "&")
      && negb (Ascii.eqb c "000") && negb (Ascii.eqb c "013")
      && markup_free rest
  end.

End Html.

(** The text a card would show if every field were displayed literally. *)
Definition literal_card_text (tip : Tip) : string :=
  nl +:+ indent12 +:+ icon tip +:+
  nl +:+ indent12 +:+ title tip +:+
  nl +:+ indent12 +:+ description tip +:+
  nl +:+ indent8.

(* ================================================================== *)
(** ** The billing calculator of the offline analysis *)
(* ================================================================== *)

Module Billing.

Local Open Scope Q_scope.

(** Modelled from the spec: the rate schedule of the offline analysis
    script data_analysis.py, which is not among the sources.  A tier is
    its upper bound (none for the unbounded last tier) and its price. *)
Record RateTier := { thresholdKWh : option Q; pricePerKWh : Q }.

(** Modelled from the spec: the calculator (data_analysis.py, absent)
    answers with an integer cost or rejects its input. *)
Inductive result := Cost (c : Z) | ValidationError.

(** Modelled from the spec: clamp of the calculator's formula; for
    [lo <= hi] this is also the least of [hi] and the greater of [x] and
    [lo]. *)
Definition clamp (x lo hi : Q) : Q := Qmax lo (Qmin x hi).

(** Modelled from the spec: the billable quantity of a tier with
    cumulative lower bound [L] and upper bound [U], both possibly
    infinite, is clamp(usage - L, 0, U - L). *)
Definition billable (usageKWh : Q) (L U : option Q) : Q :=
  match L, U with
  | Some l, Some u => clamp (usageKWh - l) 0 (u - l)
  | Some l, None => Qmax 0 (usageKWh - l)
  | None, _ => 0
  end.

(** Modelled from the spec: rounding of the calculator (absent) to the
    nearest integer, a half going up. *)
Definition round_half_up (x : Q) : Z := Qfloor (x + (1 # 2)).

(** A rational is below zero exactly when its numerator is. *)
Definition negative (x : Q) : bool := (Qnum x <? 0)%Z.

(** Modelled from the spec: the tiers are walked in order, each one
    starting where the previous one ended, and the tier costs added. *)
Fixpoint tier_costs (L : option Q) (usageKWh : Q) (tiers : list RateTier) : Q :=
  match tiers with
  | [] => 0
  | t :: rest =>
      billable usageKWh L (thresholdKWh t) * pricePerKWh t
      + tier_costs (thresholdKWh t) usageKWh rest
  end.

(** Modelled from the spec: the Billing Calculator of data_analysis.py
    (absent from the sources): negative usage is rejected before anything
    is computed, otherwise the summed tier costs are rounded half up. *)
Definition calculate (usageKWh : Q) (tiers : list RateTier) : result :=
  if negative usageKWh then ValidationError
  else Cost (round_half_up (tier_costs (Some 0) usageKWh tiers)).

(** The bounds of tier [i] read off the schedule by position. *)
Definition U (tiers : list RateTier) (i : nat) : option Q :=
  match tiers !! i with
  | Some t => thresholdKWh t
  | None => None
  end.

Definition L (tiers : list RateTier) (i : nat) : option Q :=
  match i with
  | O => Some 0
  | S j => U tiers j
  end.

Definition price (tiers : list RateTier) (i : nat) : Q :=
  match tiers !! i with
  | Some t => pricePerKWh t
  | None => 0
  end.

(** The cost of tier [i]: its billable quantity times its price. *)
Definition tier_term (usageKWh : Q) (tiers : list RateTier) (i : nat) : Q :=
  billable usageKWh (L tiers i) (U tiers i) * price tiers i.

(** A schedule whose finite bounds are amounts of energy: none is
    negative. *)
Definition nonnegative_thresholds (tiers : list RateTier) : Prop :=
  Forall (fun t => match thresholdKWh t with
                   | Some u => 0 <= u
                   | None => True
                   end) tiers.

(** The sum over the tier positions [i = 0 .. n-1] of a term. *)
Definition sum_over (n : nat) (term : nat -> Q) : Q :=
  foldr (fun i acc => term i + acc) 0 (seq 0 n).

Definition example_schedule : list RateTier :=
  [ {| thresholdKWh := Some 100; pricePerKWh := 100 |};
    {| thresholdKWh := None; pricePerKWh := 200 |} ].

End Billing.

(* ================================================================== *)
(** ** Notions the statements are phrased with *)
(* ================================================================== *)

Definition chars (s : string) : list ascii := list_ascii_of_string s.

Definition is_separator (c : ascii) : bool := Ascii.eqb c JS.separator.

(** The characters of a formatted number with the separators taken out. *)
Definition strip_separators (s : string) : list ascii :=
  List.filter (fun c => negb (is_separator c)) (chars s).

(** Grouped in threes from the right: counting from the last character,
    every fourth position, and no other, holds the separator, and the
    text does not begin with one. *)
Definition grouped_in_threes (s : string) : Prop :=
  (forall (j : nat) (c : ascii),
      rev (chars s) !! j = Some c -> (c = JS.separator <-> (j mod 4 = 3)%nat))
  /\ head (chars s) <> Some JS.separator.

(** A run of characters none of which is the separator. *)
Definition plain (l : list ascii) : Prop :=
  Forall (fun c => is_separator c = false) l.

(** The annual summary as it is derived from the monthly records:
    totals by summation, averages over the twelve months, the average cost
    rounded. *)
Record AnnualSummary := {
  totalUsage : Q;
  totalCost : Z;
  avgUsage : Q;
  avgCost : Z
}.

Definition sum_usage (recs : list MonthRecord) : Q :=
  foldr (fun r acc => (usage r + acc)%Q) 0%Q recs.

Definition sum_cost (recs : list MonthRecord) : Z :=
  foldr (fun r acc => cost r + acc) 0 recs.

Definition derive_summary (recs : list MonthRecord) : AnnualSummary :=
  {| totalUsage := sum_usage recs;
     totalCost := sum_cost recs;
     avgUsage := (sum_usage recs / 12)%Q;
     avgCost := JS.Math_round (inject_Z (sum_cost recs) / 12)%Q |}.

(** The property key of month [m]. *)
Definition month_key (m : N) : string := JS.decimal m.

(** Twelve records, keys unique, every month from 1 to 12 present and no
    other key, usage and cost not negative. *)
Definition MonthlyRecord_invariant (obj : JS.object MonthRecord) : Prop :=
  length obj = 12%nat
  /\ NoDup (fst <$> obj)
  /\ (forall m : N, (1 <= m <= 12)%N -> is_Some (JS.get (month_key m) obj))
  /\ Forall (fun kv =>
               (exists m : N, (1 <= m <= 12)%N /\ fst kv = month_key m)
               /\ (0 <= usage (snd kv))%Q
               /\ 0 <= cost (snd kv)) obj.

(** The two states of an animated section. *)
Definition revealed (i : nat) (p : Page) : Prop :=
  exists el, sections p !! i = Some el
             /\ opacity (style el) = "1"
             /\ transform (style el) = "translateY(0)".

Definition hidden (i : nat) (p : Page) : Prop :=
  exists el, sections p !! i = Some el
             /\ opacity (style el) = "0"
             /\ transform (style el) = "translateY(30px)".

(** A character that is a decimal digit. *)
Definition is_digit (c : ascii) : bool :=
  match JS.digit_value c with
  | Some _ => true
  | None => false
  end.

Definition digits_only (l : list ascii) : Prop :=
  Forall (fun c => is_digit c = true) l.

(** An object all of whose keys are array indices. *)
Definition index_keyed {A} (obj : JS.object A) : Prop :=
  Forall (fun kv => is_Some (JS.array_index (fst kv))) obj.

(** The months of a year, and the dataset that holds record [r m] under
    the key of month [m], written in month order. *)
Definition month_numbers : list N := [1; 2; 3; 4; 5; 6; 7; 8; 9; 10; 11; 12]%N.

Definition dataset_in_month_order (r : N -> MonthRecord) : JS.object MonthRecord :=
  (fun m => (month_key m, r m)) <$> month_numbers.

(** The record a dataset holds for month [m] (a zero record if none). *)
Definition record_of (obj : JS.object MonthRecord) (m : N) : MonthRecord :=
  default {| usage := 0; cost := 0 |} (JS.get (month_key m) obj).

(** Index properties compared by their index. *)
Definition index_le {A} (a b : N * A) : Prop := (fst a <= fst b)%N.

(** Whether a report has an intersecting entry whose target is section
    [i]. *)
Definition reported_intersecting (i : nat) (entries : list Entry) : bool :=
  existsb (fun e => isIntersecting e && Nat.eqb (target e) i) entries.

(** A tip none of whose fields has a character HTML treats as markup. *)
Definition markup_free_tip (tip : Tip) : bool :=
  Html.markup_free (icon tip) && Html.markup_free (title tip)
  && Html.markup_free (description tip).

(** The two series of the chart a page holds ([[]] when it has none). *)
Definition chart_series (p : Page) : list Z * list Z :=
  match chart p with
  | Some c =>
      match datasets c with
      | [bars; line] => (data bars, data line)
      | _ => ([], [])
      end
  | None => ([], [])
  end.

(* ================================================================== *)
(** ** The formatter *)
(* ================================================================== *)

Section Grouping.

(** Lists can be taken apart three elements at a time. *)
Lemma list_ind_by_three (P : list ascii -> Prop) :
  (forall l, (length l <= 3)%nat -> P l) ->
  (forall a b c d more, P (d :: more) -> P (a :: b :: c :: d :: more)) ->
  forall l, P l.
Proof.
  intros Hshort Hstep l.
  remember (length l) as n eqn:Hn.
  revert l Hn.
  induction n as [n IH] using lt_wf_ind.
  intros l Hn.
  destruct l as [|a [|b [|c [|d more]]]]; try (apply Hshort; simpl; lia).
  apply Hstep.
  apply (IH (length (d :: more))); [subst n; simpl; lia | reflexivity].
Qed.

Lemma group_rev_short l : (length l <= 3)%nat -> JS.group_rev l = l.
Proof.
  destruct l as [|a [|b [|c [|d more]]]]; simpl; intros; try reflexivity; lia.
Qed.

Lemma group_rev_step a b c d more :
  JS.group_rev (a :: b :: c :: d :: more)
  = a :: b :: c :: JS.separator :: JS.group_rev (d :: more).
Proof. reflexivity. Qed.

Lemma filter_plain l :
  plain l -> List.filter (fun c => negb (is_separator c)) l = l.
Proof.
  induction 1 as [|c l Hc _ IH]; simpl; [reflexivity|].
  rewrite Hc; simpl. now rewrite IH.
Qed.

Lemma group_rev_strip l :
  plain l -> List.filter (fun c => negb (is_separator c)) (JS.group_rev l) = l.
Proof.
  induction l as [l Hl | a b c d more IH] using list_ind_by_three; intros Hp.
  - rewrite group_rev_short by assumption. now apply filter_plain.
  - rewrite group_rev_step.
    inversion Hp as [|? ? Ha Hp1]; subst.
    inversion Hp1 as [|? ? Hb Hp2]; subst.
    inversion Hp2 as [|? ? Hc Hp3]; subst.
    cbn [List.filter].
    rewrite Ha, Hb, Hc.
    change (is_separator JS.separator) with true.
    cbn [negb].
    now rewrite IH.
Qed.

Lemma is_separator_spec c : is_separator c = true <-> c = JS.separator.
Proof. unfold is_separator. apply Ascii.eqb_eq. Qed.

Lemma plain_lookup l j c :
  plain l -> l !! j = Some c -> c <> JS.separator.
Proof.
  intros Hp Hj Hc.
  apply (proj1 (Forall_lookup _ l) Hp) in Hj.
  apply is_separator_spec in Hc. congruence.
Qed.

(** Position by position: the separator sits exactly at 3, 7, 11, ... *)
Lemma group_rev_positions l :
  plain l ->
  forall j c, JS.group_rev l !! j = Some c ->
              (c = JS.separator <-> (j mod 4 = 3)%nat).
Proof.
  induction l as [l Hl | a b c0 d more IH] using list_ind_by_three;
    intros Hp j c Hj.
  - rewrite group_rev_short in Hj by assumption.
    assert (j < 3)%nat as Hlt.
    { apply lookup_lt_Some in Hj. lia. }
    split.
    + intros Hc. exfalso. eapply plain_lookup; eauto.
    + intros Hm. rewrite Nat.mod_small in Hm by lia. lia.
  - rewrite group_rev_step in Hj.
    inversion Hp as [|? ? Ha Hp1]; subst.
    inversion Hp1 as [|? ? Hb Hp2]; subst.
    inversion Hp2 as [|? ? Hc Hp3]; subst.
    destruct j as [|[|[|[|j]]]]; simpl in Hj.
    + injection Hj as <-. split; [|discriminate].
      intros E. apply is_separator_spec in E. congruence.
    + injection Hj as <-. split; [|discriminate].
      intros E. apply is_separator_spec in E. congruence.
    + injection Hj as <-. split; [|discriminate].
      intros E. apply is_separator_spec in E. congruence.
    + injection Hj as <-. split; reflexivity.
    + specialize (IH Hp3 j c Hj).
      replace (S (S (S (S j)))) with (j + 1 * 4)%nat by lia.
      now rewrite Nat.Div0.mod_add.
Qed.

(** The most significant digit stays last. *)
Lemma group_rev_last l : last (JS.group_rev l) = last l.
Proof.
  induction l as [l Hl | a b c d more IH] using list_ind_by_three.
  - now rewrite group_rev_short.
  - rewrite group_rev_step.
    change (last (a :: b :: c :: d :: more)) with (last (d :: more)).
    rewrite <- IH.
    destruct (JS.group_rev (d :: more)) eqn:E; [|reflexivity].
    exfalso. clear -E.
    destruct more as [|x [|y [|z more]]]; discriminate.
Qed.

End Grouping.

Lemma rev_is_reverse {A} (l : list A) : rev l = reverse l.
Proof. unfold reverse. apply rev_alt. Qed.

Lemma uint_digits_plain (d : Decimal.uint) :
  plain (chars (NilEmpty.string_of_uint d)).
Proof.
  induction d; simpl; constructor; try assumption; reflexivity.
Qed.

Lemma decimal_plain (n : N) : plain (chars (JS.decimal n)).
Proof.
  unfold JS.decimal, NilZero.string_of_uint.
  destruct (N.to_uint n) as [|d|d|d|d|d|d|d|d|d|d]; simpl.
  1: repeat constructor.
  all: constructor; [reflexivity | apply uint_digits_plain].
Qed.

Lemma chars_group3 (s : string) :
  chars (JS.group3 s) = rev (JS.group_rev (rev (chars s))).
Proof. unfold JS.group3, chars. apply list_ascii_of_string_of_list_ascii. Qed.

Lemma formatNumber_of_N (n : N) :
  formatNumber (Z.of_N n) = JS.group3 (JS.decimal n).
Proof.
  unfold formatNumber, JS.Intl_NumberFormat_koKR_format.
  rewrite Zabs2N.id.
  destruct (Z.ltb_spec (Z.of_N n) 0) as [H|H]; [lia | reflexivity].
Qed.

(** C7. For every non-negative integer [n] in the safe-integer range,
    [formatNumber n] is the decimal digits of [n] grouped in threes from
    the right with the comma as the fixed separator: taking the separators
    out leaves exactly the digits of [n], counted from the right every
    fourth character and no other is the separator, and the text does not
    start with one.  In particular 1880327 is shown as 1,880,327 and 0 as
    0. *)
Theorem formatNumber_groups_thousands (n : N) :
  Z.of_N n <= JS.MAX_SAFE_INTEGER ->
  strip_separators (formatNumber (Z.of_N n)) = chars (JS.decimal n)
  /\ grouped_in_threes (formatNumber (Z.of_N n))
  /\ formatNumber 1880327 = "1,880,327"
  /\ formatNumber 0 = "0".
Proof.
  intros _. rewrite formatNumber_of_N.
  pose proof (decimal_plain n) as Hp.
  assert (plain (rev (chars (JS.decimal n)))) as Hr.
  { unfold plain. rewrite rev_is_reverse. now apply Forall_reverse. }
  split; [|split; [|split; reflexivity]].
  - unfold strip_separators.
    rewrite chars_group3, filter_rev, group_rev_strip by assumption.
    apply rev_involutive.
  - split.
    + intros j c. rewrite chars_group3, rev_involutive.
      now apply group_rev_positions.
    + rewrite chars_group3, rev_is_reverse, head_reverse, group_rev_last.
      rewrite rev_is_reverse, last_reverse.
      destruct (chars (JS.decimal n)) as [|c l] eqn:E; [discriminate|].
      simpl. intros [= ->].
      inversion Hp as [|? ? Hc _]; subst. discriminate Hc.
Qed.

(* ================================================================== *)
(** ** The summary cards *)
(* ================================================================== *)

Lemma set_textContent_lookup id text p :
  textContent (set_textContent id text p) = <[id := text]> (textContent p).
Proof. reflexivity. Qed.

(** The literals of [updateSummaryData] against the dataset: the two
    totals and the average cost are the derived values themselves; the
    average usage literal is the derived average rounded to two decimals,
    within half a hundredth of it. *)
Lemma summary_literals_against_dataset :
  let s := derive_summary (JS.Object_values monthlyData0) in
  (totalUsage s == 1880327.03)%Q
  /\ totalCost s = 526778625
  /\ avgCost s = 43898219
  /\ (156693.915 <= avgUsage s < 156693.925)%Q.
Proof.
  cbv zeta. split; [vm_compute; reflexivity|].
  split; [vm_compute; reflexivity|].
  split; [vm_compute; reflexivity|].
  split; vm_compute; [discriminate | reflexivity].
Qed.

(** C3. With the embedded dataset, the four texts written by
    [updateSummaryData] are the figures derived from the twelve monthly
    records, each passed through [formatNumber] and followed by its unit:
    the rounded sum of the usages, the sum of the costs, the rounded
    twelfth of the usage sum and the rounded twelfth of the cost sum. *)
Theorem summary_shows_derived_figures (p : Page) :
  monthlyData p = monthlyData0 ->
  let s := derive_summary (JS.Object_values (monthlyData p)) in
  let shown := textContent (updateSummaryData p) in
  shown !! "total-usage" = Some (formatNumber (JS.Math_round (totalUsage s)) +:+ " kWh")
  /\ shown !! "total-cost" = Some (formatNumber (totalCost s) +:+ " 원")
  /\ shown !! "avg-usage" = Some (formatNumber (JS.Math_round (avgUsage s)) +:+ " kWh")
  /\ shown !! "avg-cost" = Some (formatNumber (avgCost s) +:+ " 원").
Proof.
  intros Hdata s shown. subst s shown. rewrite Hdata.
  unfold updateSummaryData. rewrite !set_textContent_lookup.
  repeat split.
  - rewrite !lookup_insert_ne by discriminate. rewrite lookup_insert_eq.
    f_equal.
  - rewrite !lookup_insert_ne by discriminate. rewrite lookup_insert_eq.
    f_equal.
  - rewrite !lookup_insert_ne by discriminate. rewrite lookup_insert_eq.
    f_equal.
  - rewrite lookup_insert_eq. f_equal.
Qed.

Lemma summary_shows_derived_figures_witness :
  monthlyData page0 = monthlyData0
  /\ textContent (updateSummaryData page0) !! "total-usage" = Some "1,880,327 kWh"
  /\ textContent (updateSummaryData page0) !! "total-cost" = Some "526,778,625 원"
  /\ textContent (updateSummaryData page0) !! "avg-usage" = Some "156,694 kWh"
  /\ textContent (updateSummaryData page0) !! "avg-cost" = Some "43,898,219 원".
Proof.
  split; [reflexivity|].
  exact (summary_shows_derived_figures page0 eq_refl).
Defined.

(* ================================================================== *)
(** ** The chart *)
(* ================================================================== *)

Lemma month_cases (m : N) :
  (1 <= m <= 12)%N ->
  (m = 1 \/ m = 2 \/ m = 3 \/ m = 4 \/ m = 5 \/ m = 6 \/ m = 7 \/ m = 8
   \/ m = 9 \/ m = 10 \/ m = 11 \/ m = 12)%N.
Proof. lia. Qed.

Ltac each_month H :=
  apply month_cases in H;
  destruct H as [->|[->|[->|[->|[->|[->|[->|[->|[->|[->|[->| ->]]]]]]]]]]].





(* ================================================================== *)
(** ** The tip cards *)
(* ================================================================== *)

Lemma createTipCards_energyTips (n : nat) (p : Page) :
  energyTips (Nat.iter n createTipCards p) = energyTips p.
Proof. induction n as [|n IH]; simpl; [reflexivity | exact IH]. Qed.

(** C4 as stated fails: two calls leave twenty cards in the container. *)
Lemma createTipCards_twice_is_not_ten :
  length (tips_grid (createTipCards (createTipCards page0))) <> 10%nat.
Proof. vm_compute. discriminate. Qed.

(** C4 (amended).  Each call of [createTipCards] appends one card per tip,
    in order, to whatever the container already holds and removes nothing:
    after [n] calls the container has grown by [n] times the number of
    tips.  The page load calls it once on the empty container, which then
    holds exactly the ten cards of the ten tips in order; a second call
    makes twenty. *)
Theorem createTipCards_appends (n : nat) (p : Page) :
  tips_grid (createTipCards p) = tips_grid p ++ imap tipCard (energyTips p)
  /\ length (tips_grid (Nat.iter n createTipCards p))
     = (length (tips_grid p) + n * length (energyTips p))%nat
  /\ innerHTML <$> tips_grid (run page_load page0) = tipCard_innerHTML <$> energyTips0
  /\ length (tips_grid (run page_load page0)) = 10%nat
  /\ length (tips_grid (createTipCards (createTipCards page0))) = 20%nat.
Proof.
  split; [reflexivity|]. split; [|repeat split; vm_compute; reflexivity].
  induction n as [|n IH]; [simpl; lia|].
  change (Nat.iter (S n) createTipCards p)
    with (createTipCards (Nat.iter n createTipCards p)).
  unfold createTipCards at 1. cbn [tips_grid set_tips_grid].
  rewrite length_app, length_imap, IH, createTipCards_energyTips. lia.
Qed.

(* ================================================================== *)
(** ** The dataset *)
(* ================================================================== *)

Lemma observer_callback_monthlyData entries p :
  monthlyData (observer_callback entries p) = monthlyData p.
Proof.
  unfold observer_callback. revert p.
  induction entries as [|e entries IH]; intros p; simpl; [reflexivity|].
  rewrite IH. destruct (isIntersecting e); reflexivity.
Qed.

Lemma handle_monthlyData h p : monthlyData (handle h p) = monthlyData p.
Proof.
  destruct h; try reflexivity.
  apply observer_callback_monthlyData.
Qed.

Lemma run_monthlyData hs p : monthlyData (run hs p) = monthlyData p.
Proof.
  unfold run. revert p.
  induction hs as [|h hs IH]; intros p; simpl; [reflexivity|].
  rewrite IH. apply handle_monthlyData.
Qed.

Ltac key_is_month :=
  match goal with
  | |- exists m : N, _ /\ fst (?k, _) = _ =>
      exists (default 0%N (JS.parse_digits 0 k));
      split; [vm_compute; split; discriminate | reflexivity]
  end.

Lemma monthlyData0_invariant : MonthlyRecord_invariant monthlyData0.
Proof.
  split; [reflexivity|]. split; [|split].
  - refine (bool_decide_unpack (NoDup (fst <$> monthlyData0)) _).
    vm_compute. exact I.
  - intros m Hm. each_month Hm; vm_compute; eexists; reflexivity.
  - unfold monthlyData0.
    repeat (apply Forall_cons; split;
            [split; [key_is_month | split; [unfold Qle; simpl; lia | simpl; lia]] |]).
    apply Forall_nil_2.
Qed.

(** C8. The embedded dataset has exactly twelve records with unique keys,
    one under each month key from 1 to 12 and none under any other key,
    every usage a non-negative number and every cost a non-negative
    integer; and neither the functions of the script nor any sequence of
    the handlers it registers changes the dataset, so the invariant holds
    in every state the page can reach. *)
Theorem dataset_invariant_and_immutable :
  MonthlyRecord_invariant monthlyData0
  /\ (forall p, monthlyData (updateSummaryData p) = monthlyData p
                /\ monthlyData (createTipCards p) = monthlyData p
                /\ monthlyData (setChartHeight p) = monthlyData p
                /\ monthlyData (createChart p) = monthlyData p
                /\ monthlyData (addCardInteractions p) = monthlyData p
                /\ monthlyData (addScrollAnimations p) = monthlyData p)
  /\ (forall hs p, monthlyData (run hs p) = monthlyData p)
  /\ (forall hs n_summary n_sections,
        MonthlyRecord_invariant (monthlyData (run hs (initial_page n_summary n_sections)))).
Proof.
  split; [exact monthlyData0_invariant|].
  split; [intros p; repeat split|].
  split; [exact run_monthlyData|].
  intros hs n_summary n_sections. rewrite run_monthlyData.
  exact monthlyData0_invariant.
Qed.

(* ================================================================== *)
(** ** The scroll animation *)
(* ================================================================== *)

Section Reveal.

Variable i : nat.

Lemma alter_reveal_revealed (j : nat) (p : Page) :
  revealed i p -> revealed i (set_sections (alter reveal j (sections p)) p).
Proof.
  intros (el & Hel & Ho & Ht). unfold revealed. cbn [sections set_sections].
  destruct (decide (j = i)) as [->|Hne].
  - exists (reveal el). rewrite list_lookup_alter_eq, Hel. repeat split.
  - exists el. rewrite list_lookup_alter_ne by assumption. repeat split; assumption.
Qed.

Lemma observer_callback_keeps_revealed (entries : list Entry) (p : Page) :
  revealed i p -> revealed i (observer_callback entries p).
Proof.
  unfold observer_callback. revert p.
  induction entries as [|e entries IH]; intros p Hr; simpl; [assumption|].
  apply IH. destruct (isIntersecting e); [|assumption].
  now apply alter_reveal_revealed.
Qed.

Lemma observer_callback_reveals (entries : list Entry) (p : Page) :
  is_Some (sections p !! i) ->
  In {| target := i; isIntersecting := true |} entries ->
  revealed i (observer_callback entries p).
Proof.
  unfold observer_callback. revert p.
  induction entries as [|e entries IH]; intros p Hsome Hin; [destruct Hin|].
  destruct Hin as [->|Hin]; simpl.
  - apply (observer_callback_keeps_revealed entries).
    destruct Hsome as [el Hel].
    exists (reveal el). cbn [sections set_sections].
    rewrite list_lookup_alter_eq, Hel. repeat split.
  - apply IH; [|assumption].
    destruct (isIntersecting e); [|assumption].
    cbn [sections set_sections].
    destruct (decide (target e = i)) as [->|Hne].
    + rewrite list_lookup_alter_eq. destruct Hsome as [el ->].
      simpl. eexists. reflexivity.
    + now rewrite list_lookup_alter_ne.
Qed.

Lemma handle_keeps_revealed (h : Handler) (p : Page) :
  is_load h = false -> revealed i p -> revealed i (handle h p).
Proof.
  destruct h; simpl; intros Hl Hr; try discriminate Hl; try exact Hr.
  now apply observer_callback_keeps_revealed.
Qed.

Lemma run_keeps_revealed (hs : list Handler) (p : Page) :
  Forall (fun h => is_load h = false) hs ->
  revealed i p -> revealed i (run hs p).
Proof.
  unfold run. intros Hall. revert p.
  induction Hall as [|h hs Hh _ IH]; intros p Hr; simpl; [assumption|].
  apply IH. now apply handle_keeps_revealed.
Qed.

Lemma revealed_not_hidden (p : Page) : revealed i p -> ~ hidden i p.
Proof.
  intros (el & Hel & Ho & _) (el' & Hel' & Ho' & _).
  rewrite Hel in Hel'. injection Hel' as <-.
  rewrite Ho in Ho'. discriminate Ho'.
Qed.

End Reveal.

(** C9. Once an intersection report that contains an intersecting entry
    for an observed section has been handled, the section is in its
    visible state, and it is still visible, hence not in the hidden and
    offset state, after any later sequence of the events of the page
    (further intersection reports, with the section intersecting or not,
    clicks, hovers, resizes) other than a new page load. *)
Theorem reveal_is_one_shot_latch
    (p : Page) (i : nat) (el : Section) (entries : list Entry) (later : list Handler) :
  sections p !! i = Some el ->
  observed el = true ->
  In {| target := i; isIntersecting := true |} entries ->
  Forall (fun h => is_load h = false) later ->
  revealed i (run later (handle (Intersection entries) p))
  /\ ~ hidden i (run later (handle (Intersection entries) p)).
Proof.
  intros Hel Hobs Hin Hlater.
  assert (revealed i (run later (handle (Intersection entries) p))) as Hr.
  { apply run_keeps_revealed; [assumption|].
    cbn [handle].
    apply observer_callback_reveals; [rewrite Hel; eexists; reflexivity|].
    apply filter_In. split; [assumption|].
    unfold is_observed. cbn [target]. now rewrite Hel. }
  split; [assumption | now apply revealed_not_hidden].
Qed.

Lemma reveal_is_one_shot_latch_witness :
  let p := run page_load page0 in
  let entries := [ {| target := 1%nat; isIntersecting := true |} ] in
  let later := [ Intersection [ {| target := 1%nat; isIntersecting := false |} ];
                 Click 0; ClickTimer 0; MouseEnter 3; MouseLeave 3; Resize ] in
  hidden 1 p
  /\ revealed 1 (run later (handle (Intersection entries) p))
  /\ ~ hidden 1 (run later (handle (Intersection entries) p)).
Proof.
  intros p entries later.
  split.
  - eexists. split; [reflexivity|]. split; reflexivity.
  - apply (reveal_is_one_shot_latch p 1
             {| style := {| opacity := "0"; transform := "translateY(30px)";
                            transition := "opacity 0.6s ease, transform 0.6s ease" |};
                observed := true |} entries later).
    + reflexivity.
    + reflexivity.
    + left. reflexivity.
    + repeat constructor.
Defined.

(* ================================================================== *)
(** ** The text of a tip card *)
(* ================================================================== *)

Lemma append_String (c : ascii) (s t : string) :
  String c s +:+ t = String c (s +:+ t).
Proof. reflexivity. Qed.

Lemma append_empty (t : string) : EmptyString +:+ t = t.
Proof. reflexivity. Qed.

Ltac push_append := repeat (rewrite append_String || rewrite append_empty).

Lemma text_markup_free_prefix (s t : string) :
  Html.markup_free s = true ->
  Html.text false (s +:+ t) = s +:+ Html.text false t.
Proof.
  induction s as [|c s IH]; simpl; intros H; [reflexivity|].
  apply andb_prop in H as [H Hs]. apply andb_prop in H as [H Hcr].
  apply andb_prop in H as [H Hnul]. apply andb_prop in H as [Hlt _].
  apply negb_true_iff in Hlt, Hnul, Hcr. rewrite Hlt, Hnul, Hcr. simpl.
  now rewrite IH.
Qed.

(* ================================================================== *)
(** ** The billing calculator *)
(* ================================================================== *)

Section BillingFacts.

Import Billing.
Local Open Scope Q_scope.

Variable usageKWh : Q.

Lemma negative_spec (x : Q) : negative x = true <-> x < 0.
Proof.
  unfold negative, Qlt. simpl. rewrite Z.ltb_lt. lia.
Qed.

Lemma lookup_middle_tier (pre rest : list RateTier) (t : RateTier) :
  (pre ++ t :: rest) !! length pre = Some t.
Proof. apply list_lookup_middle. reflexivity. Qed.

(** Walking the tiers from position [length pre] on adds up the terms
    of these positions. *)
Lemma tier_costs_by_position (tiers pre : list RateTier) :
  tier_costs (L (pre ++ tiers) (length pre)) usageKWh tiers
  = foldr (fun i acc => tier_term usageKWh (pre ++ tiers) i + acc) 0
          (seq (length pre) (length tiers)).
Proof.
  revert pre.
  induction tiers as [|t rest IH]; intros pre; [reflexivity|].
  cbn [tier_costs length seq foldr].
  unfold tier_term at 1. unfold U at 1, price at 1.
  rewrite lookup_middle_tier.
  f_equal.
  specialize (IH (pre ++ [t])).
  rewrite <- app_assoc in IH. cbn [app] in IH.
  rewrite length_app in IH. cbn [length] in IH.
  rewrite Nat.add_1_r in IH.
  rewrite <- IH.
  f_equal. cbn [L]. unfold U. now rewrite lookup_middle_tier.
Qed.

Lemma billable_zero_usage (l : Q) (u : option Q) :
  0 <= l -> billable 0 (Some l) u == 0.
Proof.
  intros Hl. unfold billable, clamp.
  assert (0 - l <= 0) as Hneg.
  { unfold Qminus. rewrite Qplus_0_l.
    apply (Qopp_le_compat 0 l) in Hl. exact Hl. }
  destruct u as [u|].
  - apply Q.max_l. eapply Qle_trans; [apply Q.le_min_l | exact Hneg].
  - now apply Q.max_l.
Qed.

Lemma tier_costs_zero_usage (tiers : list RateTier) (lower : option Q) :
  match lower with Some l => 0 <= l | None => True end ->
  nonnegative_thresholds tiers ->
  tier_costs lower 0 tiers == 0.
Proof.
  intros Hl Hall. revert lower Hl.
  induction Hall as [|t rest Ht _ IH]; intros lower Hl; [reflexivity|].
  cbn [tier_costs].
  rewrite (IH (thresholdKWh t) Ht).
  destruct lower as [l|].
  - rewrite billable_zero_usage by assumption. ring.
  - cbn [billable]. ring.
Qed.

End BillingFacts.

(** C1. For a usage that is not negative, the calculator returns the
    round-half-up integer of the sum, over the tiers [i] of the schedule,
    of clamp(usage - L[i], 0, U[i] - L[i]) times the price of tier [i],
    where [U i] is the bound of tier [i] and [L i] the bound of the tier
    before it (0 for the first).  For the schedule 0-100 kWh at 100 and
    above 100 kWh at 200, usage 150 costs 20,000 and usage 100 costs
    10,000. *)
Theorem calculate_is_rounded_tier_sum (usageKWh : Q) (tiers : list Billing.RateTier) :
  (0 <= usageKWh)%Q ->
  Billing.calculate usageKWh tiers
  = Billing.Cost
      (Billing.round_half_up
         (Billing.sum_over (length tiers) (Billing.tier_term usageKWh tiers)))
  /\ Billing.calculate 150 Billing.example_schedule = Billing.Cost 20000
  /\ Billing.calculate 100 Billing.example_schedule = Billing.Cost 10000.
Proof.
  intros Hpos.
  split; [|split; vm_compute; reflexivity].
  unfold Billing.calculate.
  destruct (Billing.negative usageKWh) eqn:E.
  - apply negative_spec in E. exfalso. now apply (Qlt_not_le _ _ E).
  - do 2 f_equal. exact (tier_costs_by_position usageKWh tiers []).
Qed.

Lemma calculate_is_rounded_tier_sum_witness :
  (0 <= 150)%Q
  /\ Billing.calculate 150 Billing.example_schedule
     = Billing.Cost
         (Billing.round_half_up
            (Billing.sum_over 2 (Billing.tier_term 150 Billing.example_schedule))).
Proof.
  split; [discriminate|].
  apply (calculate_is_rounded_tier_sum 150 Billing.example_schedule).
  discriminate.
Defined.

(** C2. A negative usage is answered with the validation error, whatever
    the schedule: no cost is returned for it, in particular not the cost
    of usage 0.  Usage 0 costs 0 (for a schedule whose bounds are not
    negative). *)
Theorem negative_usage_is_rejected (usageKWh : Q) (tiers : list Billing.RateTier) :
  (usageKWh < 0)%Q ->
  Billing.calculate usageKWh tiers = Billing.ValidationError
  /\ (forall c, Billing.calculate usageKWh tiers <> Billing.Cost c)
  /\ Billing.calculate usageKWh tiers <> Billing.calculate 0 tiers
  /\ (Billing.nonnegative_thresholds tiers ->
      Billing.calculate 0 tiers = Billing.Cost 0).
Proof.
  intros Hneg.
  assert (Billing.calculate usageKWh tiers = Billing.ValidationError) as Herr.
  { unfold Billing.calculate.
    apply negative_spec in Hneg. now rewrite Hneg. }
  rewrite Herr.
  split; [reflexivity|]. split; [discriminate|]. split; [discriminate|].
  intros Hsched. unfold Billing.calculate. cbn [Billing.negative Qnum Z.ltb Z.compare].
  f_equal. unfold Billing.round_half_up.
  assert (Billing.tier_costs (Some 0%Q) 0 tiers + (1 # 2) == 1 # 2)%Q as Hsum.
  { rewrite tier_costs_zero_usage; [reflexivity | discriminate | assumption]. }
  now rewrite (Qfloor_comp _ _ Hsum).
Qed.

Lemma negative_usage_is_rejected_witness :
  (-5 < 0)%Q
  /\ Billing.nonnegative_thresholds Billing.example_schedule
  /\ Billing.calculate (-5) Billing.example_schedule = Billing.ValidationError
  /\ Billing.calculate 0 Billing.example_schedule = Billing.Cost 0.
Proof.
  assert (-5 < 0)%Q as Hneg by reflexivity.
  assert (Billing.nonnegative_thresholds Billing.example_schedule) as Hsched.
  { repeat constructor. discriminate. }
  destruct (negative_usage_is_rejected (-5) Billing.example_schedule Hneg)
    as (Herr & _ & _ & Hzero).
  split; [exact Hneg|]. split; [exact Hsched|]. split; [exact Herr|].
  exact (Hzero Hsched).
Defined.


(* ================================================================== *)
(** ** More on the formatter *)
(* ================================================================== *)

Lemma parse_uint_acc (d : Decimal.uint) (acc : positive) :
  JS.parse_digits (N.pos acc) (NilEmpty.string_of_uint d)
  = Some (N.pos (Pos.of_uint_acc d acc)).
Proof.
  revert acc. induction d as [|d IH|d IH|d IH|d IH|d IH|d IH|d IH|d IH|d IH|d IH];
    intros acc; [reflexivity|..];
    cbn [NilEmpty.string_of_uint JS.parse_digits];
    change (JS.digit_value _) with (Some 0%N) || change (JS.digit_value _) with (Some 1%N)
    || change (JS.digit_value _) with (Some 2%N) || change (JS.digit_value _) with (Some 3%N)
    || change (JS.digit_value _) with (Some 4%N) || change (JS.digit_value _) with (Some 5%N)
    || change (JS.digit_value _) with (Some 6%N) || change (JS.digit_value _) with (Some 7%N)
    || change (JS.digit_value _) with (Some 8%N) || change (JS.digit_value _) with (Some 9%N);
    cbn [Pos.of_uint_acc]; rewrite <- IH; f_equal; lia.
Qed.

Lemma parse_uint (d : Decimal.uint) :
  JS.parse_digits 0 (NilEmpty.string_of_uint d) = Some (Pos.of_uint d).
Proof.
  induction d as [|d IH|d IH|d IH|d IH|d IH|d IH|d IH|d IH|d IH|d IH];
    [reflexivity | exact IH | ..];
    cbn [NilEmpty.string_of_uint JS.parse_digits Pos.of_uint];
    rewrite <- parse_uint_acc; reflexivity.
Qed.

Lemma parse_decimal (n : N) : JS.parse_digits 0 (JS.decimal n) = Some n.
Proof.
  unfold JS.decimal.
  rewrite <- (DecimalN.Unsigned.of_to n) at 2. unfold N.of_uint.
  destruct (N.to_uint n) as [|d|d|d|d|d|d|d|d|d|d]; [reflexivity|..];
    apply (parse_uint (_ d)).
Qed.

Lemma decimal_inj (a b : N) : JS.decimal a = JS.decimal b -> a = b.
Proof.
  intros H. pose proof (parse_decimal a) as Ha.
  rewrite H, parse_decimal in Ha. now injection Ha.
Qed.

Lemma uint_digits_only (d : Decimal.uint) :
  digits_only (chars (NilEmpty.string_of_uint d)).
Proof.
  induction d; simpl; constructor; try assumption; reflexivity.
Qed.

Lemma decimal_digits_only (n : N) : digits_only (chars (JS.decimal n)).
Proof.
  unfold JS.decimal, NilZero.string_of_uint.
  destruct (N.to_uint n) as [|d|d|d|d|d|d|d|d|d|d]; simpl.
  1: repeat constructor.
  all: constructor; [reflexivity | apply uint_digits_only].
Qed.

Lemma decimal_nonempty (n : N) : JS.decimal n <> EmptyString.
Proof.
  unfold JS.decimal, NilZero.string_of_uint.
  destruct (N.to_uint n); discriminate.
Qed.

Lemma strip_group3 (s : string) :
  plain (chars s) -> strip_separators (JS.group3 s) = chars s.
Proof.
  intros Hp. unfold strip_separators.
  rewrite chars_group3, filter_rev, group_rev_strip.
  - apply rev_involutive.
  - unfold plain. rewrite rev_is_reverse. now apply Forall_reverse.
Qed.

Lemma head_group3 (s : string) : head (chars (JS.group3 s)) = head (chars s).
Proof.
  rewrite chars_group3, rev_is_reverse, head_reverse, group_rev_last.
  now rewrite rev_is_reverse, last_reverse.
Qed.

Lemma chars_inj (s t : string) : chars s = chars t -> s = t.
Proof.
  intros H. apply (f_equal string_of_list_ascii) in H.
  unfold chars in H. now rewrite !string_of_list_ascii_of_string in H.
Qed.

Lemma group3_decimal_inj (a b : N) :
  JS.group3 (JS.decimal a) = JS.group3 (JS.decimal b) -> a = b.
Proof.
  intros H. apply decimal_inj, chars_inj.
  rewrite <- (strip_group3 (JS.decimal a)) by apply decimal_plain.
  rewrite <- (strip_group3 (JS.decimal b)) by apply decimal_plain.
  now rewrite H.
Qed.

Lemma group3_decimal_no_minus (n : N) (s : string) :
  JS.group3 (JS.decimal n) <> String "-" s.
Proof.
  intros H. pose proof (head_group3 (JS.decimal n)) as Hh.
  rewrite H in Hh. pose proof (decimal_digits_only n) as Hd.
  destruct (chars (JS.decimal n)) as [|c l]; [discriminate|].
  simpl in Hh. injection Hh as <-.
  inversion Hd as [|? ? Hc _]; subst. discriminate Hc.
Qed.

(** X1. Taking the commas out of a formatted natural number in the
    safe-integer range and reading the digits gives the number back. *)
Theorem formatNumber_reads_back (n : N) :
  Z.of_N n <= JS.MAX_SAFE_INTEGER ->
  JS.parse_digits 0
    (string_of_list_ascii (strip_separators (formatNumber (Z.of_N n))))
  = Some n.
Proof.
  intros _. rewrite formatNumber_of_N, strip_group3 by apply decimal_plain.
  unfold chars. rewrite string_of_list_ascii_of_string.
  apply parse_decimal.
Qed.

Lemma formatNumber_reads_back_witness :
  Z.of_N 526778625 <= JS.MAX_SAFE_INTEGER
  /\ JS.parse_digits 0
       (string_of_list_ascii (strip_separators (formatNumber (Z.of_N 526778625))))
     = Some 526778625%N.
Proof.
  assert (Z.of_N 526778625 <= JS.MAX_SAFE_INTEGER) as H by (vm_compute; discriminate).
  split; [exact H | exact (formatNumber_reads_back 526778625 H)].
Defined.

(** X2. Different safe integers are never shown alike: [formatNumber] is
    injective on the integers of magnitude at most [MAX_SAFE_INTEGER],
    negative ones included. *)
Theorem formatNumber_injective (a b : Z) :
  Z.abs a <= JS.MAX_SAFE_INTEGER ->
  Z.abs b <= JS.MAX_SAFE_INTEGER ->
  formatNumber a = formatNumber b -> a = b.
Proof.
  intros _ _.
  unfold formatNumber, JS.Intl_NumberFormat_koKR_format.
  destruct (Z.ltb_spec a 0) as [Ha|Ha], (Z.ltb_spec b 0) as [Hb|Hb];
    cbn [String.append]; intros H.
  - injection H as H. apply group3_decimal_inj in H. lia.
  - symmetry in H. now apply group3_decimal_no_minus in H.
  - now apply group3_decimal_no_minus in H.
  - apply group3_decimal_inj in H. lia.
Qed.

Lemma group_rev_length (l : list ascii) :
  length (JS.group_rev l) = (length l + (length l - 1) / 3)%nat.
Proof.
  induction l as [l Hl | a b c d more IH] using list_ind_by_three.
  - rewrite group_rev_short by assumption.
    rewrite Nat.div_small; lia.
  - rewrite group_rev_step. cbn [length] in *. rewrite IH.
    replace (S (S (S (S (length more)))) - 1)%nat
      with (S (length more) - 1 + 1 * 3)%nat by lia.
    rewrite Nat.div_add by lia. lia.
Qed.

(** X3. A natural number in the safe-integer range with [d] digits is
    shown with [d] characters plus one comma for every full group of three
    digits that has a digit before it, that is [(d - 1) / 3] commas. *)
Theorem formatNumber_length (n : N) :
  Z.of_N n <= JS.MAX_SAFE_INTEGER ->
  length (chars (formatNumber (Z.of_N n)))
  = (length (chars (JS.decimal n)) + (length (chars (JS.decimal n)) - 1) / 3)%nat.
Proof.
  intros _. rewrite formatNumber_of_N, chars_group3.
  now rewrite length_rev, group_rev_length, length_rev.
Qed.

Lemma formatNumber_length_witness :
  Z.of_N 1880327 <= JS.MAX_SAFE_INTEGER
  /\ length (chars (formatNumber (Z.of_N 1880327))) = (7 + (7 - 1) / 3)%nat.
Proof.
  assert (Z.of_N 1880327 <= JS.MAX_SAFE_INTEGER) as H by (vm_compute; discriminate).
  split; [exact H | exact (formatNumber_length 1880327 H)].
Defined.

(* ================================================================== *)
(** ** More on the chart *)
(* ================================================================== *)

Lemma Math_round_bounds (x : Q) :
  (x - (1 # 2) < inject_Z (JS.Math_round x) <= x + (1 # 2))%Q.
Proof.
  unfold JS.Math_round.
  pose proof (Qfloor_le (x + (1 # 2))) as Hle.
  pose proof (Qlt_floor (x + (1 # 2))) as Hlt.
  rewrite inject_Z_plus in Hlt. change (inject_Z 1) with 1%Q in Hlt.
  generalize dependent (inject_Z (Qfloor (x + (1 # 2)))).
  intros r Hle Hlt. split; lra.
Qed.

Lemma Math_round_millions (c : Z) :
  c - 500000 < 1000000 * JS.Math_round (inject_Z c / 1000000)%Q <= c + 500000.
Proof.
  pose proof (Math_round_bounds (inject_Z c / 1000000)%Q) as [Hlo Hhi].
  generalize dependent (JS.Math_round (inject_Z c / 1000000)%Q).
  intros r Hlo Hhi.
  unfold Qlt, Qle, Qminus, Qplus, Qdiv, Qmult, Qinv, Qopp, inject_Z in Hlo, Hhi.
  simpl in Hlo, Hhi. lia.
Qed.

Section ObjectValues.

Context {A : Type}.
Implicit Types (obj : JS.object A) (l : list (N * A)).

Lemma insert_by_index_perm (x : N * A) l : JS.insert_by_index x l ≡ₚ x :: l.
Proof.
  induction l as [|y l IH]; simpl; [reflexivity|].
  destruct (fst x <=? fst y)%N; [reflexivity|].
  rewrite IH. apply Permutation_swap.
Qed.

Lemma sort_by_index_perm l : JS.sort_by_index l ≡ₚ l.
Proof.
  induction l as [|x l IH]; simpl; [reflexivity|].
  now rewrite insert_by_index_perm, IH.
Qed.

Lemma insert_by_index_sorted (x : N * A) l :
  StronglySorted index_le l -> StronglySorted index_le (JS.insert_by_index x l).
Proof.
  induction 1 as [|y l Hs IH Hy]; simpl; [repeat constructor|].
  destruct (N.leb_spec (fst x) (fst y)) as [Hxy|Hxy].
  - constructor; [now constructor|].
    constructor; [exact Hxy|].
    eapply Forall_impl; [exact Hy|].
    intros z Hz. unfold index_le in *. lia.
  - constructor; [exact IH|].
    rewrite insert_by_index_perm. constructor; [|exact Hy].
    unfold index_le. lia.
Qed.

Lemma sort_by_index_sorted l : StronglySorted index_le (JS.sort_by_index l).
Proof.
  induction l as [|x l IH]; simpl; [constructor|].
  now apply insert_by_index_sorted.
Qed.

Lemma same_index_same_property l (x y : N * A) :
  NoDup (fst <$> l) -> x ∈ l -> y ∈ l -> fst x = fst y -> x = y.
Proof.
  induction l as [|z l IH]; intros Hnd Hx Hy Hk; [inversion Hx|].
  rewrite fmap_cons in Hnd. apply NoDup_cons in Hnd as [Hz Hnd].
  apply elem_of_cons in Hx as [->|Hx], Hy as [->|Hy].
  - reflexivity.
  - exfalso. apply Hz. rewrite Hk. now apply list_elem_of_fmap_2.
  - exfalso. apply Hz. rewrite <- Hk. now apply list_elem_of_fmap_2.
  - now apply IH.
Qed.

(** Sorting by index forgets the order the properties were created in. *)
Lemma sort_by_index_order_free l1 l2 :
  l1 ≡ₚ l2 -> NoDup (fst <$> l2) -> JS.sort_by_index l1 = JS.sort_by_index l2.
Proof.
  intros Hp Hnd.
  apply (StronglySorted_unique_strong index_le);
    [| apply sort_by_index_sorted | apply sort_by_index_sorted
     | now rewrite !sort_by_index_perm].
  intros x y Hx Hy Hxy Hyx.
  apply (same_index_same_property l2); [assumption | | |].
  - now rewrite sort_by_index_perm, Hp in Hx.
  - now rewrite sort_by_index_perm in Hy.
  - unfold index_le in *. lia.
Qed.

Lemma array_index_Some (k : string) (n : N) :
  JS.array_index k = Some n -> k = JS.decimal n.
Proof.
  unfold JS.array_index. destruct k as [|c k]; [discriminate|].
  destruct (JS.parse_digits 0 (String c k)) as [m|]; [|discriminate].
  destruct (String.eqb (JS.decimal m) (String c k)) eqn:E; [|discriminate].
  apply String.eqb_eq in E.
  destruct (m <? 2 ^ 32 - 1)%N; [|discriminate].
  intros [= <-]. now symmetry.
Qed.

Lemma index_properties_cons (k : string) (v : A) obj :
  JS.index_properties ((k, v) :: obj)
  = match JS.array_index k with
    | Some n => (n, v) :: JS.index_properties obj
    | None => JS.index_properties obj
    end.
Proof.
  unfold JS.index_properties. cbn [omap list_omap fst snd].
  destruct (JS.array_index k); reflexivity.
Qed.

Lemma string_properties_cons (k : string) (v : A) obj :
  JS.string_properties ((k, v) :: obj)
  = match JS.array_index k with
    | Some _ => JS.string_properties obj
    | None => (k, v) :: JS.string_properties obj
    end.
Proof.
  unfold JS.string_properties. cbn [List.filter fst].
  destruct (JS.array_index k); reflexivity.
Qed.

Lemma index_properties_key obj (n : N) (v : A) :
  (n, v) ∈ JS.index_properties obj -> (JS.decimal n, v) ∈ obj.
Proof.
  induction obj as [|[k w] obj IH]; [inversion 1|].
  rewrite index_properties_cons.
  destruct (JS.array_index k) as [m|] eqn:E.
  - intros [[= -> ->]|H]%elem_of_cons.
    + apply array_index_Some in E as ->. apply list_elem_of_here.
    + apply list_elem_of_further, IH, H.
  - intros H. apply list_elem_of_further, IH, H.
Qed.

Lemma index_properties_NoDup obj :
  NoDup (fst <$> obj) -> NoDup (fst <$> JS.index_properties obj).
Proof.
  induction obj as [|[k v] obj IH]; [constructor|].
  rewrite fmap_cons. intros [Hk Hnd]%NoDup_cons.
  rewrite index_properties_cons.
  destruct (JS.array_index k) as [n|] eqn:E; [|now apply IH].
  rewrite fmap_cons. apply NoDup_cons. split; [|now apply IH].
  intros [[m w] [Hm Hin]]%list_elem_of_fmap. cbn in Hm. subst m.
  apply index_properties_key in Hin.
  apply array_index_Some in E as ->.
  apply Hk. now apply (list_elem_of_fmap_2 fst) in Hin.
Qed.

Lemma string_properties_index_keyed obj :
  index_keyed obj -> JS.string_properties obj = [].
Proof.
  induction 1 as [|[k v] obj [n Hn] _ IH]; [reflexivity|].
  rewrite string_properties_cons. cbn in Hn. now rewrite Hn.
Qed.

Lemma object_partition obj :
  (snd <$> JS.index_properties obj) ++ (snd <$> JS.string_properties obj)
  ≡ₚ snd <$> obj.
Proof.
  induction obj as [|[k v] obj IH]; [reflexivity|].
  rewrite index_properties_cons, string_properties_cons, fmap_cons.
  destruct (JS.array_index k).
  - rewrite fmap_cons. cbn. now rewrite IH.
  - rewrite fmap_cons. cbn. now rewrite <- Permutation_middle, IH.
Qed.

Lemma Object_values_perm obj : JS.Object_values obj ≡ₚ snd <$> obj.
Proof.
  unfold JS.Object_values. now rewrite sort_by_index_perm, object_partition.
Qed.

Lemma Object_values_order_free obj1 obj2 :
  obj1 ≡ₚ obj2 -> NoDup (fst <$> obj2) -> index_keyed obj2 ->
  JS.Object_values obj1 = JS.Object_values obj2.
Proof.
  intros Hp Hnd Hk.
  assert (index_keyed obj1) as Hk1 by (unfold index_keyed; now rewrite Hp).
  unfold JS.Object_values.
  rewrite !string_properties_index_keyed by assumption.
  f_equal. f_equal. apply sort_by_index_order_free.
  - unfold JS.index_properties. now rewrite Hp.
  - now apply index_properties_NoDup.
Qed.

End ObjectValues.

Lemma chart_series_createChart (p : Page) :
  chart_series (createChart p)
  = ((fun r => JS.Math_round (usage r)) <$> JS.Object_values (monthlyData p),
     (fun r => JS.Math_round (inject_Z (cost r) / 1000000)%Q)
       <$> JS.Object_values (monthlyData p)).
Proof. reflexivity. Qed.

(** X4. For a record whose cost is a non-negative safe integer, in any
    dataset, the value the chart draws is within one half of what it stands
    for: the bar is within half a kWh of the record's usage, and the line
    point, in millions, is within 500,000 of the record's cost. *)
Theorem chart_values_within_half (p : Page) (k : nat) (rec : MonthRecord) :
  JS.Object_values (monthlyData p) !! k = Some rec ->
  0 <= cost rec <= JS.MAX_SAFE_INTEGER ->
  exists bar point,
    fst (chart_series (createChart p)) !! k = Some bar
    /\ snd (chart_series (createChart p)) !! k = Some point
    /\ (usage rec - (1 # 2) < inject_Z bar <= usage rec + (1 # 2))%Q
    /\ cost rec - 500000 < 1000000 * point <= cost rec + 500000.
Proof.
  intros Hk _. rewrite chart_series_createChart. cbn [fst snd].
  rewrite !list_lookup_fmap, Hk. cbn.
  do 2 eexists. split; [reflexivity|]. split; [reflexivity|].
  split; [apply Math_round_bounds | apply Math_round_millions].
Qed.

Lemma chart_values_within_half_witness :
  JS.Object_values (monthlyData page0) !! 7%nat
  = Some {| usage := 202643.01; cost := 56791534 |}
  /\ exists bar point,
       fst (chart_series (createChart page0)) !! 7%nat = Some bar
       /\ snd (chart_series (createChart page0)) !! 7%nat = Some point
       /\ (202643.01 - (1 # 2) < inject_Z bar <= 202643.01 + (1 # 2))%Q
       /\ 56791534 - 500000 < 1000000 * point <= 56791534 + 500000.
Proof.
  split; [reflexivity|].
  apply (chart_values_within_half page0 7
           {| usage := 202643.01; cost := 56791534 |} eq_refl).
  cbn [cost]. split; [lia | vm_compute; discriminate].
Defined.

(** X5. Whatever the dataset, each series of the chart has exactly one
    value per property of [monthlyData], the rounded values of its
    records in some order, while the twelve month labels are fixed: the
    labels are not derived from the data. *)
Theorem chart_series_one_value_per_record (p : Page) :
  fst (chart_series (createChart p))
    ≡ₚ (fun kv => JS.Math_round (usage (snd kv))) <$> monthlyData p
  /\ snd (chart_series (createChart p))
    ≡ₚ (fun kv => JS.Math_round (inject_Z (cost (snd kv)) / 1000000)%Q) <$> monthlyData p
  /\ length (fst (chart_series (createChart p))) = length (monthlyData p)
  /\ length (snd (chart_series (createChart p))) = length (monthlyData p)
  /\ (labels <$> chart (createChart p)) = Some months.
Proof.
  rewrite chart_series_createChart. cbn [fst snd].
  pose proof (Object_values_perm (monthlyData p)) as Hp.
  repeat split.
  - rewrite Hp, <- list_fmap_compose. reflexivity.
  - rewrite Hp, <- list_fmap_compose. reflexivity.
  - rewrite length_fmap, Hp. apply length_fmap.
  - rewrite length_fmap, Hp. apply length_fmap.
Qed.

(** X6. The chart does not depend on the order in which the months were
    written in the dataset: two datasets with the same properties, keyed
    by distinct array indices, give the same chart, series and all. *)
Theorem chart_ignores_creation_order (p q : Page) :
  monthlyData p ≡ₚ monthlyData q ->
  NoDup (fst <$> monthlyData q) ->
  index_keyed (monthlyData q) ->
  chart (createChart p) = chart (createChart q).
Proof.
  intros Hp Hnd Hk. unfold createChart. cbn [chart set_chart].
  now rewrite (Object_values_order_free _ _ Hp Hnd Hk).
Qed.

Lemma chart_ignores_creation_order_witness :
  let p := {| monthlyData := rev monthlyData0; energyTips := energyTips0;
              textContent := ∅; tips_grid := []; summary_cards := [];
              chart_container_height := EmptyString; chart := None;
              sections := [] |} in
  monthlyData p ≡ₚ monthlyData page0
  /\ chart (createChart p) = chart (createChart page0).
Proof.
  intros p.
  assert (monthlyData p ≡ₚ monthlyData page0) as Hp.
  { symmetry. apply Permutation_rev. }
  split; [exact Hp|].
  apply (chart_ignores_creation_order p page0 Hp).
  - refine (bool_decide_unpack (NoDup (fst <$> monthlyData0)) _).
    vm_compute. exact I.
  - unfold index_keyed, page0, initial_page, monthlyData, monthlyData0.
    repeat (apply Forall_cons; split; [vm_compute; eexists; reflexivity|]).
    apply Forall_nil_2.
Defined.

(* ================================================================== *)
(** ** More on the summary cards *)
(* ================================================================== *)

Lemma page_eq (p q : Page) :
  monthlyData p = monthlyData q -> energyTips p = energyTips q ->
  textContent p = textContent q -> tips_grid p = tips_grid q ->
  summary_cards p = summary_cards q ->
  chart_container_height p = chart_container_height q ->
  chart p = chart q -> sections p = sections q -> p = q.
Proof. destruct p, q; cbn; intros; subst; reflexivity. Qed.

(** X7. Writing the summary is idempotent, and what it writes does not
    depend on what the four elements showed before: a second call changes
    nothing, and two pages that differ only in the text of their elements
    show the same four texts after the call. *)
Theorem updateSummaryData_idempotent (p : Page) :
  updateSummaryData (updateSummaryData p) = updateSummaryData p
  /\ (forall q id,
        id ∈ ["total-usage"; "total-cost"; "avg-usage"; "avg-cost"] ->
        textContent (updateSummaryData q) !! id
        = textContent (updateSummaryData p) !! id).
Proof.
  split.
  - apply page_eq; try reflexivity.
    unfold updateSummaryData. rewrite !set_textContent_lookup.
    apply map_eq. intros id. rewrite !lookup_insert.
    repeat case_decide; reflexivity.
  - intros q id Hid. unfold updateSummaryData.
    rewrite !set_textContent_lookup.
    rewrite !elem_of_cons in Hid.
    destruct Hid as [->|[->|[->|[->|Hid]]]]; [..|now apply elem_of_nil in Hid];
      repeat (rewrite lookup_insert_eq || rewrite lookup_insert_ne by discriminate);
      reflexivity.
Qed.

(** X8. [updateSummaryData] writes to the four summary elements only: the
    text of every other element, and every other part of the page, is
    what it was. *)
Theorem updateSummaryData_writes_four_only (p : Page) (id : string) :
  id ∉ ["total-usage"; "total-cost"; "avg-usage"; "avg-cost"] ->
  textContent (updateSummaryData p) !! id = textContent p !! id
  /\ tips_grid (updateSummaryData p) = tips_grid p
  /\ summary_cards (updateSummaryData p) = summary_cards p
  /\ chart (updateSummaryData p) = chart p
  /\ chart_container_height (updateSummaryData p) = chart_container_height p
  /\ sections (updateSummaryData p) = sections p.
Proof.
  intros Hid. split; [|repeat split].
  rewrite !not_elem_of_cons in Hid. destruct Hid as (H1 & H2 & H3 & H4 & _).
  unfold updateSummaryData.
  rewrite !set_textContent_lookup.
  now rewrite !lookup_insert_ne by (apply not_eq_sym; assumption).
Qed.

Lemma updateSummaryData_writes_four_only_witness :
  let p := set_textContent "page-title" "A청사" page0 in
  ("page-title" ∉ ["total-usage"; "total-cost"; "avg-usage"; "avg-cost"])
  /\ textContent (updateSummaryData p) !! "page-title" = Some "A청사".
Proof.
  intros p.
  assert ("page-title" ∉ ["total-usage"; "total-cost"; "avg-usage"; "avg-cost"])
    as Hid.
  { rewrite !not_elem_of_cons. repeat split; try discriminate. apply not_elem_of_nil. }
  split; [exact Hid|].
  exact (proj1 (updateSummaryData_writes_four_only p "page-title" Hid)).
Defined.

(* ================================================================== *)
(** ** More on the scroll animation *)
(* ================================================================== *)

Lemma reveal_reveal (el : Section) : reveal (reveal el) = reveal el.
Proof. reflexivity. Qed.

Lemma observer_callback_cons (e : Entry) (entries : list Entry) (p : Page) :
  observer_callback (e :: entries) p
  = observer_callback entries
      (if isIntersecting e
       then set_sections (alter reveal (target e) (sections p)) p
       else p).
Proof. reflexivity. Qed.

Lemma observer_callback_frame (entries : list Entry) (p : Page) :
  observer_callback entries p
  = set_sections (sections (observer_callback entries p)) p.
Proof.
  revert p. induction entries as [|e entries IH]; intros p.
  - now destruct p.
  - rewrite observer_callback_cons.
    destruct (isIntersecting e); [|apply IH].
    rewrite IH at 1. reflexivity.
Qed.

Lemma observer_callback_lookup (entries : list Entry) (p : Page) (i : nat) :
  sections (observer_callback entries p) !! i
  = (if reported_intersecting i entries then reveal else id) <$> sections p !! i.
Proof.
  revert p. induction entries as [|e entries IH]; intros p.
  - cbn. now destruct (sections p !! i).
  - rewrite observer_callback_cons, IH. cbn [reported_intersecting existsb].
    fold (reported_intersecting i entries).
    destruct (isIntersecting e); cbn [andb orb]; [|reflexivity].
    cbn [sections set_sections].
    destruct (Nat.eqb_spec (target e) i) as [->|Hne]; cbn [orb].
    + rewrite list_lookup_alter_eq.
      destruct (sections p !! i) as [el|]; [|reflexivity].
      cbn. now destruct (reported_intersecting i entries).
    + now rewrite list_lookup_alter_ne.
Qed.

Lemma reported_intersecting_perm (i : nat) (es1 es2 : list Entry) :
  es1 ≡ₚ es2 -> reported_intersecting i es1 = reported_intersecting i es2.
Proof.
  unfold reported_intersecting.
  induction 1 as [|e es1 es2 _ IH|e1 e2 es|es1 es2 es3 _ IH1 _ IH2]; cbn [existsb].
  - reflexivity.
  - now rewrite IH.
  - destruct (isIntersecting e1 && (target e1 =? i)%nat),
             (isIntersecting e2 && (target e2 =? i)%nat); reflexivity.
  - congruence.
Qed.

(** X9. The observer callback is exact: after it has run on a report, a
    section is in its revealed style if the report has an intersecting
    entry for it and is untouched otherwise (a revealed section keeps its
    transition), no section is added or removed, and nothing else on the
    page changes. *)
Theorem observer_callback_reveals_exactly (entries : list Entry) (p : Page) (i : nat) :
  sections (observer_callback entries p) !! i
  = (if reported_intersecting i entries then reveal <$> sections p !! i
     else sections p !! i)
  /\ length (sections (observer_callback entries p)) = length (sections p)
  /\ observer_callback entries p
     = set_sections (sections (observer_callback entries p)) p.
Proof.
  split; [|split; [|apply observer_callback_frame]].
  - rewrite observer_callback_lookup.
    destruct (reported_intersecting i entries); [reflexivity|].
    now destruct (sections p !! i).
  - revert p. induction entries as [|e entries IH]; intros p; [reflexivity|].
    rewrite observer_callback_cons, IH.
    destruct (isIntersecting e); [|reflexivity].
    cbn [sections set_sections]. apply length_alter.
Qed.

(** X10. The callback never hides anything: a report in which no entry
    is intersecting (sections scrolling out of view) leaves the page
    exactly as it is. *)
Theorem observer_callback_ignores_leaving (entries : list Entry) (p : Page) :
  Forall (fun e => isIntersecting e = false) entries ->
  observer_callback entries p = p.
Proof.
  induction 1 as [|e entries He _ IH]; [reflexivity|].
  rewrite observer_callback_cons, He. exact IH.
Qed.

Lemma observer_callback_ignores_leaving_witness :
  let p := run (page_load ++ [Intersection [ {| target := 0%nat; isIntersecting := true |} ]]) page0 in
  let entries := [ {| target := 0%nat; isIntersecting := false |};
                   {| target := 1%nat; isIntersecting := false |} ] in
  Forall (fun e => isIntersecting e = false) entries
  /\ revealed 0 p
  /\ observer_callback entries p = p.
Proof.
  intros p entries.
  assert (Forall (fun e => isIntersecting e = false) entries) as H
    by (repeat constructor).
  split; [exact H|]. split.
  - eexists. split; [reflexivity|]. split; reflexivity.
  - exact (observer_callback_ignores_leaving entries p H).
Defined.

(** X11. The outcome of a report depends only on which sections it
    reports as intersecting: reordering its entries gives the same page,
    and handling the same report again changes nothing. *)
Theorem observer_callback_order_free (es1 es2 : list Entry) (p : Page) :
  es1 ≡ₚ es2 ->
  observer_callback es1 p = observer_callback es2 p
  /\ observer_callback es1 (observer_callback es2 p) = observer_callback es2 p.
Proof.
  intros Hp.
  assert (sections (observer_callback es1 p) = sections (observer_callback es2 p)) as Hs.
  { apply list_eq. intros i. rewrite !observer_callback_lookup.
    now rewrite (reported_intersecting_perm i es1 es2 Hp). }
  split.
  - rewrite (observer_callback_frame es1), (observer_callback_frame es2).
    now rewrite Hs.
  - rewrite (observer_callback_frame es1).
    assert (sections (observer_callback es1 (observer_callback es2 p))
            = sections (observer_callback es2 p)) as ->.
    { apply list_eq. intros i. rewrite !observer_callback_lookup.
      rewrite (reported_intersecting_perm i es1 es2 Hp).
      destruct (reported_intersecting i es2), (sections p !! i); reflexivity. }
    now destruct (observer_callback es2 p).
Qed.

Lemma observer_callback_order_free_witness :
  let es1 := [ {| target := 0%nat; isIntersecting := true |};
               {| target := 1%nat; isIntersecting := false |};
               {| target := 1%nat; isIntersecting := true |} ] in
  let es2 := [ {| target := 1%nat; isIntersecting := true |};
               {| target := 0%nat; isIntersecting := true |};
               {| target := 1%nat; isIntersecting := false |} ] in
  es1 ≡ₚ es2
  /\ observer_callback es1 (run page_load page0)
     = observer_callback es2 (run page_load page0).
Proof.
  intros es1 es2.
  assert (es1 ≡ₚ es2) as Hp.
  { unfold es1, es2.
    etransitivity; [apply perm_skip, perm_swap | apply perm_swap]. }
  split; [exact Hp|].
  exact (proj1 (observer_callback_order_free es1 es2 (run page_load page0) Hp)).
Defined.

(* ================================================================== *)
(** ** The card interactions *)
(* ================================================================== *)

Lemma set_tips_grid_same (p : Page) : set_tips_grid (tips_grid p) p = p.
Proof. now destruct p. Qed.

Lemma set_summary_cards_same (p : Page) : set_summary_cards (summary_cards p) p = p.
Proof. now destruct p. Qed.

Lemma alter_fixed {A} (f : A -> A) (i : nat) (l : list A) :
  (forall x, l !! i = Some x -> f x = x) -> alter f i l = l.
Proof.
  intros H. rewrite (list_alter_ext f id l l i); [|exact H|reflexivity].
  now apply list_alter_id.
Qed.

(** X12. Hovering is a round trip: for a tip card whose inline background
    is unset, as it is for every card the script creates, pointer enter
    followed by pointer leave gives back the page exactly; in between, a
    card that has the listeners shows the tint #f8f9ff. *)
Theorem hover_round_trip (p : Page) (j : nat) :
  (forall card, tips_grid p !! j = Some card -> backgroundColor card = EmptyString) ->
  handle (MouseLeave j) (handle (MouseEnter j) p) = p
  /\ (forall card, tips_grid p !! j = Some card -> hover_listeners card = true ->
        backgroundColor <$> tips_grid (handle (MouseEnter j) p) !! j
        = Some "#f8f9ff").
Proof.
  intros Hbg. split.
  - change (handle (MouseLeave j) (handle (MouseEnter j) p))
      with (set_tips_grid
              (alter (recolor_card EmptyString) j
                 (alter (recolor_card "#f8f9ff") j (tips_grid p))) p).
    rewrite list_alter_alter_eq, alter_fixed; [apply set_tips_grid_same|].
    intros card Hc. specialize (Hbg card Hc).
    unfold compose, recolor_card.
    destruct card as [cn ad ih bg hl]; cbn in *; subst bg.
    destruct hl; reflexivity.
  - intros card Hc Hl. cbn [handle tips_grid set_tips_grid].
    rewrite list_lookup_alter_eq, Hc. cbn.
    unfold recolor_card. now rewrite Hl.
Qed.

Lemma hover_round_trip_witness :
  let p := run page_load page0 in
  (forall card, tips_grid p !! 3%nat = Some card -> backgroundColor card = EmptyString)
  /\ handle (MouseLeave 3) (handle (MouseEnter 3) p) = p.
Proof.
  intros p.
  assert (forall card, tips_grid p !! 3%nat = Some card
                       -> backgroundColor card = EmptyString) as Hbg.
  { intros card [= <-]. reflexivity. }
  split; [exact Hbg|].
  exact (proj1 (hover_round_trip p 3 Hbg)).
Defined.

(** X13. The click pulse is a round trip: for a summary card whose inline
    transform is unset, a click followed by its 150 ms timer gives back
    the page exactly; in between, a card that has the listener is scaled
    to 0.95. *)
Theorem click_pulse_round_trip (p : Page) (i : nat) :
  (forall card, summary_cards p !! i = Some card -> card_transform card = EmptyString) ->
  handle (ClickTimer i) (handle (Click i) p) = p
  /\ (forall card, summary_cards p !! i = Some card -> click_listener card = true ->
        card_transform <$> summary_cards (handle (Click i) p) !! i
        = Some "scale(0.95)").
Proof.
  intros Ht. split.
  - change (handle (ClickTimer i) (handle (Click i) p))
      with (set_summary_cards
              (alter (restyle_summary EmptyString) i
                 (alter (restyle_summary "scale(0.95)") i (summary_cards p))) p).
    rewrite list_alter_alter_eq, alter_fixed; [apply set_summary_cards_same|].
    intros card Hc. specialize (Ht card Hc).
    unfold compose, restyle_summary.
    destruct card as [tr cl]; cbn in *; subst tr.
    destruct cl; reflexivity.
  - intros card Hc Hl. cbn [handle summary_cards set_summary_cards].
    rewrite list_lookup_alter_eq, Hc. cbn.
    unfold restyle_summary. now rewrite Hl.
Qed.

Lemma click_pulse_round_trip_witness :
  let p := run page_load page0 in
  (forall card, summary_cards p !! 2%nat = Some card -> card_transform card = EmptyString)
  /\ handle (ClickTimer 2) (handle (Click 2) p) = p.
Proof.
  intros p.
  assert (forall card, summary_cards p !! 2%nat = Some card
                       -> card_transform card = EmptyString) as Ht.
  { intros card [= <-]. reflexivity. }
  split; [exact Ht|].
  exact (proj1 (click_pulse_round_trip p 2 Ht)).
Defined.

(** X14. Until [addCardInteractions] has run, the cards do not react: on a
    page where no card has a listener, clicks, their timers and pointer
    enter and leave all leave the page as it is. *)
Theorem no_reaction_before_listeners (p : Page) (k : nat) :
  Forall (fun c => click_listener c = false) (summary_cards p) ->
  Forall (fun c => hover_listeners c = false) (tips_grid p) ->
  handle (Click k) p = p
  /\ handle (ClickTimer k) p = p
  /\ handle (MouseEnter k) p = p
  /\ handle (MouseLeave k) p = p.
Proof.
  intros Hs Hg.
  assert (forall t c, summary_cards p !! k = Some c -> restyle_summary t c = c) as Hrs.
  { intros t c Hc. unfold restyle_summary.
    now rewrite (proj1 (Forall_lookup _ _) Hs k c Hc). }
  assert (forall bg c, tips_grid p !! k = Some c -> recolor_card bg c = c) as Hrc.
  { intros bg c Hc. unfold recolor_card.
    now rewrite (proj1 (Forall_lookup _ _) Hg k c Hc). }
  cbn [handle].
  rewrite !(alter_fixed _ k (summary_cards p)) by auto.
  rewrite !(alter_fixed _ k (tips_grid p)) by auto.
  rewrite set_summary_cards_same, set_tips_grid_same. repeat split.
Qed.

Lemma no_reaction_before_listeners_witness :
  let p := handle DOMContentLoaded page0 in
  Forall (fun c => click_listener c = false) (summary_cards p)
  /\ Forall (fun c => hover_listeners c = false) (tips_grid p)
  /\ handle (Click 0) p = p
  /\ handle (MouseEnter 0) p = p.
Proof.
  intros p.
  assert (Forall (fun c => click_listener c = false) (summary_cards p)) as Hs
    by (repeat constructor).
  assert (Forall (fun c => hover_listeners c = false) (tips_grid p)) as Hg
    by (repeat constructor).
  destruct (no_reaction_before_listeners p 0 Hs Hg) as (Hc & _ & He & _).
  split; [exact Hs|]. split; [exact Hg|]. split; [exact Hc | exact He].
Defined.

(** X15. The hover listeners go to the elements of class tip-card that
    exist when [addCardInteractions] runs.  With the cards created first,
    every card [createTipCards] has just created has the listeners, and so
    has every child of the container that carries the class, whatever the
    container held before; with [addCardInteractions] first, none of the
    newly created cards has them. *)
Theorem listeners_need_cards_first (p : Page) :
  Forall (fun c => hover_listeners c = true)
         (drop (length (tips_grid p))
               (tips_grid (addCardInteractions (createTipCards p))))
  /\ Forall (fun c => has_class "tip-card" (className c) = true ->
                      hover_listeners c = true)
            (tips_grid (addCardInteractions (createTipCards p)))
  /\ Forall (fun c => hover_listeners c = false)
            (drop (length (tips_grid p))
                  (tips_grid (createTipCards (addCardInteractions p)))).
Proof.
  split; [|split].
  - cbn [addCardInteractions createTipCards tips_grid set_tips_grid
         set_summary_cards energyTips].
    rewrite fmap_app, drop_app_length'; [|now rewrite length_fmap].
    apply Forall_fmap, Forall_forall. intros c Hc.
    apply elem_of_lookup_imap in Hc as (k & tip & -> & _). reflexivity.
  - cbn [addCardInteractions tips_grid set_tips_grid set_summary_cards].
    apply Forall_fmap, Forall_forall. intros c _. cbn.
    destruct (has_class "tip-card" (className c)) eqn:E; cbn; [reflexivity|].
    rewrite E. discriminate.
  - cbn [createTipCards addCardInteractions tips_grid set_tips_grid
         set_summary_cards energyTips].
    rewrite drop_app_length'; [|now rewrite length_fmap].
    apply Forall_forall. intros c Hc.
    apply elem_of_lookup_imap in Hc as (k & tip & -> & _). reflexivity.
Qed.

(** X16. [addScrollAnimations] hides every animated section, whatever
    state it was in, and keeps their number: run on a page where a
    section has been revealed, as a second firing of the load timer
    would, it puts that section back into the hidden state. *)
Theorem addScrollAnimations_hides_all (p : Page) (i : nat) :
  (i < length (sections p))%nat ->
  hidden i (addScrollAnimations p)
  /\ ~ revealed i (addScrollAnimations p)
  /\ hidden i (handle LoadTimer p)
  /\ length (sections (addScrollAnimations p)) = length (sections p)
  /\ Forall (fun el => observed el = true) (sections (addScrollAnimations p)).
Proof.
  intros Hi.
  apply lookup_lt_is_Some_2 in Hi as [el Hel].
  assert (hidden i (addScrollAnimations p)) as Hh.
  { eexists. cbn [addScrollAnimations sections set_sections].
    rewrite list_lookup_fmap, Hel. cbn. repeat split. }
  split; [exact Hh|]. split; [|split; [|split]].
  - intros Hr. now apply (revealed_not_hidden i _ Hr).
  - eexists. cbn. rewrite list_lookup_fmap, Hel. cbn. repeat split.
  - cbn. apply length_fmap.
  - cbn. apply Forall_fmap, Forall_true. reflexivity.
Qed.

Lemma addScrollAnimations_hides_all_witness :
  let p := run (page_load ++ [Intersection [ {| target := 1%nat; isIntersecting := true |} ]]) page0 in
  (1 < length (sections p))%nat
  /\ revealed 1 p
  /\ hidden 1 (addScrollAnimations p).
Proof.
  intros p.
  assert (1 < length (sections p))%nat as Hi by (cbn; lia).
  split; [exact Hi|]. split.
  - eexists. split; [reflexivity|]. split; reflexivity.
  - exact (proj1 (addScrollAnimations_hides_all p 1 Hi)).
Defined.

(* ================================================================== *)
(** ** More on the tip cards *)
(* ================================================================== *)

Lemma card_text_markup_free (tip : Tip) :
  markup_free_tip tip = true ->
  Html.textContent_of (tipCard_innerHTML tip) = literal_card_text tip.
Proof.
  unfold markup_free_tip. intros H.
  apply andb_prop in H as [H Hd]. apply andb_prop in H as [Hi Ht].
  unfold Html.textContent_of, literal_card_text.
  unfold tipCard_innerHTML, nl, indent12, indent8, dquote.
  push_append. simpl.
  rewrite text_markup_free_prefix by assumption. repeat f_equal.
  simpl. rewrite text_markup_free_prefix by assumption. repeat f_equal.
  simpl. rewrite text_markup_free_prefix by assumption. reflexivity.
Qed.

(** X17. When no tip contains a character HTML treats as markup, as is
    the case for the ten tips of the script, [createTipCards] leaves the
    cards already in the container where they are and puts, right after
    them, one card per tip in the order of the tips: the card for tip [k]
    has class tip-card, the delay index [k] and shows the icon, title and
    description of tip [k] as written. *)
Theorem createTipCards_shows_tips_in_order (p : Page) (k : nat) (tip : Tip) :
  Forall (fun t => markup_free_tip t = true) (energyTips p) ->
  energyTips p !! k = Some tip ->
  take (length (tips_grid p)) (tips_grid (createTipCards p)) = tips_grid p
  /\ exists card,
       tips_grid (createTipCards p) !! (length (tips_grid p) + k)%nat = Some card
       /\ className card = "tip-card"
       /\ animationDelay_index card = k
       /\ Html.textContent_of (innerHTML card) = literal_card_text tip.
Proof.
  intros Hall Hk.
  cbn [createTipCards tips_grid set_tips_grid].
  split; [now rewrite take_app_length|].
  exists (tipCard k tip).
  rewrite lookup_app_r, Nat.add_sub' by lia.
  rewrite list_lookup_imap, Hk.
  split; [reflexivity|]. split; [reflexivity|]. split; [reflexivity|].
  apply card_text_markup_free.
  exact (proj1 (Forall_lookup _ _) Hall k tip Hk).
Qed.

Lemma createTipCards_shows_tips_in_order_witness :
  Forall (fun t => markup_free_tip t = true) (energyTips page0)
  /\ exists card,
       tips_grid (createTipCards page0) !! 9%nat = Some card
       /\ animationDelay_index card = 9%nat
       /\ Html.textContent_of (innerHTML card)
          = literal_card_text
              {| icon := "📊"; title := "에너지 사용량 모니터링";
                 description := "정기적으로 전력 사용량을 확인하고 절약 목표를 설정하여 관리하세요." |}.
Proof.
  assert (Forall (fun t => markup_free_tip t = true) (energyTips page0)) as Hall
    by (repeat constructor).
  split; [exact Hall|].
  destruct (createTipCards_shows_tips_in_order page0 9
              {| icon := "📊"; title := "에너지 사용량 모니터링";
                 description := "정기적으로 전력 사용량을 확인하고 절약 목표를 설정하여 관리하세요." |}
              Hall eq_refl) as (_ & card & Hc & _ & Hd & Ht).
  exists card. repeat split; assumption.
Defined.

Lemma formatNumber_injective_witness :
  Z.abs (-1000) <= JS.MAX_SAFE_INTEGER
  /\ formatNumber (-1000) = formatNumber (-500 - 500)
  /\ -1000 = -500 - 500.
Proof.
  assert (Z.abs (-1000) <= JS.MAX_SAFE_INTEGER) as Hb by (vm_compute; discriminate).
  assert (formatNumber (-1000) = formatNumber (-500 - 500)) as H by reflexivity.
  split; [exact Hb|]. split; [exact H|].
  exact (formatNumber_injective (-1000) (-500 - 500) Hb Hb H).
Defined.

(* ================================================================== *)
(** ** The chart series of any well-formed dataset *)
(* ================================================================== *)

Lemma get_elem {A} (k : string) (obj : JS.object A) (v : A) :
  JS.get k obj = Some v -> (k, v) ∈ obj.
Proof.
  induction obj as [|[k' v'] obj IH]; [discriminate|]. cbn [JS.get].
  destruct (String.eqb_spec k' k) as [->|Hne].
  - intros [= ->]. apply list_elem_of_here.
  - intros H. apply list_elem_of_further, IH, H.
Qed.

Lemma month_order_values (r : N -> MonthRecord) :
  JS.Object_values (dataset_in_month_order r) = r <$> month_numbers.
Proof. reflexivity. Qed.

Lemma month_order_keys (r : N -> MonthRecord) :
  fst <$> dataset_in_month_order r = month_key <$> month_numbers.
Proof. reflexivity. Qed.

Lemma month_keys_NoDup : NoDup (month_key <$> month_numbers).
Proof.
  refine (bool_decide_unpack (NoDup (month_key <$> month_numbers)) _).
  vm_compute. exact I.
Qed.

Lemma month_order_index_keyed (r : N -> MonthRecord) :
  index_keyed (dataset_in_month_order r).
Proof.
  unfold index_keyed, dataset_in_month_order, month_numbers.
  cbn [fmap list_fmap].
  repeat (apply Forall_cons; split; [eexists; reflexivity|]).
  apply Forall_nil_2.
Qed.

(** A dataset that satisfies the invariant is the month-ordered dataset
    of its own records, written in some order. *)
Lemma invariant_month_order (obj : JS.object MonthRecord) :
  MonthlyRecord_invariant obj ->
  obj ≡ₚ dataset_in_month_order (record_of obj).
Proof.
  intros (Hlen & _ & Hcover & _). symmetry.
  apply submseteq_length_Permutation; [|now rewrite Hlen].
  apply NoDup_submseteq.
  - apply (NoDup_fmap_1 fst). rewrite month_order_keys. apply month_keys_NoDup.
  - intros [k v] (m & [= -> ->] & Hm)%list_elem_of_fmap.
    assert (1 <= m <= 12)%N as Hrange.
    { unfold month_numbers in Hm. rewrite !elem_of_cons in Hm.
      destruct Hm as [->|[->|[->|[->|[->|[->|[->|[->|[->|[->|[->|[->|Hm]]]]]]]]]]]];
        [lia..|now apply elem_of_nil in Hm]. }
    destruct (Hcover m Hrange) as [rec Hrec].
    apply get_elem. unfold record_of. now rewrite Hrec.
Qed.

Lemma invariant_Object_values (obj : JS.object MonthRecord) :
  MonthlyRecord_invariant obj ->
  JS.Object_values obj = record_of obj <$> month_numbers.
Proof.
  intros Hinv. rewrite <- month_order_values.
  apply Object_values_order_free.
  - now apply invariant_month_order.
  - rewrite month_order_keys. apply month_keys_NoDup.
  - apply month_order_index_keyed.
Qed.

(** C5. For every dataset that satisfies the record invariant, in
    whatever order its months are written, and every month [m] from 1 to
    12: the chart configuration has, at position [m] of its series
    (counting from one), the label of month [m], the bar value
    [Math.round(usage)] and the line value [Math.round(cost / 1000000)]
    of the record stored under key [m] (the cost being a safe integer, so
    that the script's quotient of doubles rounds as the exact quotient
    does); both series have twelve values.  In the embedded dataset month
    1 has cost 55,366,215 and gets the line value 55. *)
Theorem chart_series_follow_months (p : Page) (m : N) (rec : MonthRecord) :
  MonthlyRecord_invariant (monthlyData p) ->
  (1 <= m <= 12)%N ->
  JS.get (month_key m) (monthlyData p) = Some rec ->
  cost rec <= JS.MAX_SAFE_INTEGER ->
  exists c bars line,
    chart (createChart p) = Some c
    /\ datasets c = [bars; line]
    /\ series_type bars = "bar" /\ yAxisID bars = "y"
    /\ series_type line = "line" /\ yAxisID line = "y1"
    /\ length (data bars) = 12%nat /\ length (data line) = 12%nat
    /\ labels c !! (N.to_nat m - 1)%nat = Some (month_key m +:+ "월")
    /\ data bars !! (N.to_nat m - 1)%nat = Some (JS.Math_round (usage rec))
    /\ data line !! (N.to_nat m - 1)%nat
       = Some (JS.Math_round (inject_Z (cost rec) / 1000000)%Q)
    /\ (monthlyData p = monthlyData0 -> m = 1%N ->
        cost rec = 55366215 /\ data line !! 0%nat = Some 55).
Proof.
  intros Hinv Hm Hget _.
  pose proof (invariant_Object_values _ Hinv) as Hov.
  assert (record_of (monthlyData p) m = rec) as Hrec.
  { unfold record_of. now rewrite Hget. }
  unfold createChart. cbn [chart set_chart]. rewrite Hov.
  do 3 eexists.
  split; [reflexivity|]. split; [reflexivity|].
  cbn [series_type yAxisID data labels].
  do 4 (split; [reflexivity|]).
  do 2 (split; [reflexivity|]).
  assert (month_numbers !! (N.to_nat m - 1)%nat = Some m) as Hm'.
  { clear -Hm. each_month Hm; reflexivity. }
  split; [clear -Hm; each_month Hm; reflexivity|].
  rewrite !list_lookup_fmap, Hm'. cbn [fmap option_fmap option_map].
  rewrite Hrec.
  split; [reflexivity|]. split; [reflexivity|].
  intros Hdata ->. rewrite Hdata in Hget.
  injection Hget as Hget. split; [now rewrite <- Hget|].
  rewrite ?list_lookup_fmap. change (month_numbers !! 0%nat) with (Some 1%N).
  cbn [fmap option_fmap option_map]. rewrite Hrec, <- Hget. reflexivity.
Qed.

Lemma chart_series_follow_months_witness :
  let p := {| monthlyData := rev monthlyData0; energyTips := energyTips0;
              textContent := ∅; tips_grid := []; summary_cards := [];
              chart_container_height := EmptyString; chart := None;
              sections := [] |} in
  MonthlyRecord_invariant (monthlyData p)
  /\ JS.get (month_key 3) (monthlyData p)
     = Some {| usage := 143327.69; cost := 40147655 |}
  /\ exists c bars line,
       chart (createChart p) = Some c
       /\ datasets c = [bars; line]
       /\ data bars !! 2%nat = Some 143328
       /\ data line !! 2%nat = Some 40.
Proof.
  intros p.
  assert (MonthlyRecord_invariant (monthlyData p)) as Hinv.
  { split; [reflexivity|]. split; [|split].
    - refine (bool_decide_unpack (NoDup (fst <$> rev monthlyData0)) _).
      vm_compute. exact I.
    - intros m Hm. each_month Hm; vm_compute; eexists; reflexivity.
    - cbn [monthlyData p]. unfold monthlyData0. cbn [rev app].
      repeat (apply Forall_cons; split;
              [split; [key_is_month | split; [unfold Qle; simpl; lia | simpl; lia]] |]).
      apply Forall_nil_2. }
  split; [exact Hinv|]. split; [reflexivity|].
  destruct (chart_series_follow_months p 3
              {| usage := 143327.69; cost := 40147655 |}
              Hinv ltac:(lia) eq_refl ltac:(vm_compute; discriminate))
    as (c & bars & line & Hc & Hd & _ & _ & _ & _ & _ & _ & _ & Hb & Hl & _).
  exists c, bars, line. repeat split; assumption.
Defined.

Lemma formatNumber_groups_thousands_witness :
  Z.of_N 56791534 <= JS.MAX_SAFE_INTEGER
  /\ strip_separators (formatNumber (Z.of_N 56791534)) = chars "56791534"
  /\ grouped_in_threes (formatNumber (Z.of_N 56791534)).
Proof.
  assert (Z.of_N 56791534 <= JS.MAX_SAFE_INTEGER) as H by (vm_compute; discriminate).
  destruct (formatNumber_groups_thousands 56791534 H) as (Hs & Hg & _).
  split; [exact H|]. split; [exact Hs | exact Hg].
Defined.

(** C10. For every tip of the list, [createTipCards] appends to the tip
    container a card whose HTML is the icon, the title and the description
    of the tip exactly as they are, between fixed pieces of markup, with
    no escaping.  When none of the three contains a character the HTML
    parser treats specially, the text of that card is the three fields as
    written; for a tip list whose tip has a tag in its title, the text of
    the card in the container is not the literal text of the fields. *)
Theorem tip_card_text_literal_only_without_markup :
  (forall (p : Page) (k : nat) (tip : Tip),
      energyTips p !! k = Some tip ->
      exists card,
        tips_grid (createTipCards p) !! (length (tips_grid p) + k)%nat = Some card
        /\ innerHTML card
           = (nl +:+ indent12 +:+ "<span class=" +:+ dquote +:+ "tip-icon" +:+ dquote +:+ ">")
             +:+ icon tip
             +:+ ("</span>" +:+ nl +:+ indent12 +:+ "<h3>")
             +:+ title tip
             +:+ ("</h3>" +:+ nl +:+ indent12 +:+ "<p>")
             +:+ description tip
             +:+ ("</p>" +:+ nl +:+ indent8)
        /\ (markup_free_tip tip = true ->
            Html.textContent_of (innerHTML card) = literal_card_text tip))
  /\ (exists (p : Page) (tip : Tip) (card : Card),
        energyTips p = [tip]
        /\ Html.markup_free (title tip) = false
        /\ tips_grid (createTipCards p) !! length (tips_grid p) = Some card
        /\ Html.textContent_of (innerHTML card) <> literal_card_text tip).
Proof.
  split.
  - intros p k tip Hk. exists (tipCard k tip).
    cbn [createTipCards tips_grid set_tips_grid].
    rewrite lookup_app_r, Nat.add_sub' by lia.
    rewrite list_lookup_imap, Hk.
    split; [reflexivity|]. split; [reflexivity|].
    apply card_text_markup_free.
  - exists {| monthlyData := monthlyData0;
              energyTips := [ {| icon := "💡"; title := "<b>LED</b>";
                                 description := "70%" |} ];
              textContent := ∅; tips_grid := []; summary_cards := [];
              chart_container_height := EmptyString; chart := None;
              sections := [] |}.
    do 2 eexists. split; [reflexivity|]. split; [reflexivity|].
    split; [reflexivity|]. vm_compute. discriminate.
Qed.

Lemma tip_card_text_literal_only_without_markup_witness :
  let tip := {| icon := "💡"; title := "LED 조명 사용";
                description := "기존 형광등을 LED 조명으로 교체하여 전력 소비를 70% 절약할 수 있습니다." |} in
  energyTips page0 !! 0%nat = Some tip
  /\ markup_free_tip tip = true
  /\ exists card,
       tips_grid (createTipCards page0) !! 0%nat = Some card
       /\ Html.textContent_of (innerHTML card) = literal_card_text tip.
Proof.
  intros tip.
  split; [reflexivity|]. split; [reflexivity|].
  destruct (proj1 tip_card_text_literal_only_without_markup page0 0%nat tip eq_refl)
    as (card & Hc & _ & Ht).
  exists card. split; [exact Hc | exact (Ht eq_refl)].
Defined.
